(** * Rule-based inference engine ([MotorInferencia], rules_engine.py)

    A shallow embedding of the class [MotorInferencia]: the loading of the
    rule base ([__init__]), the evaluation of one condition
    ([_verificar_condicao]), the evaluation of one alert against the rule
    base ([avaliar_alerta]) and the batch evaluation of a data frame
    ([processar_dataset]).

    Conventions of the embedding.
    - A Python exception that leaves a method is a value [Raise e]; a normal
      return is [Ok v].  Console output ([print]) is not modelled.
    - A rule, a condition and a result are Python dicts decoded from JSON: a
      key that is absent from the dict is a field holding [None], and reading
      it raises [KeyError] as [d[k]] does.
    - A value (a cell of the data frame, the operand of a condition) is a
      finite number, a string or a timestamp.  Numbers are exact rationals
      (every finite float and every integer is one, and Python compares them
      exactly); strings are UTF-8 byte strings, whose byte-wise lexicographic
      order is the code-point order Python uses; a timestamp is what
      [pd.to_datetime] leaves in the [timestamp] column, counted in
      nanoseconds, and JSON has none.
    - A row handed to [avaliar_alerta] is a pandas Series: a finite map from
      column label to value.

    The development also covers the generator of simulated alerts
    ([gerar_dados_simulados]) with the selection of the report of the
    script, and the scoring, clipping and discretization of the training
    data of the network ([gerar_dados_incendio], [discretizar_dados] in
    bayer_alerts.py); there the random draws are inputs. *)

From Stdlib Require Import QArith Qminmax Qround Lqa.
From stdpp Require Import gmap strings list sorting.

Local Open Scope string_scope.
Local Open Scope list_scope.

(** ** Exceptions and results *)

Inductive excecao : Type :=
  | KeyError (chave : string)
  | TypeError
  | ValueError.

Inductive res (A : Type) : Type :=
  | Ok (a : A)
  | Raise (e : excecao).
Arguments Ok {A} a.
Arguments Raise {A} e.

Definition res_bind {A B} (f : A → res B) (m : res A) : res B :=
  match m with
  | Ok a => f a
  | Raise e => Raise e
  end.

#[global] Instance res_mret : MRet res := @Ok.
#[global] Instance res_mbind : MBind res := @res_bind.

(** [d[k]] on a dict whose key [k] may be absent. *)
Definition obter {A} (chave : string) (campo : option A) : res A :=
  match campo with
  | Some a => Ok a
  | None => Raise (KeyError chave)
  end.

(** ** Data model *)

Inductive valor : Type :=
  | VNum (q : Q)
  | VStr (s : string)
  | VData (ns : Z).

Record condicao : Type := Condicao {
  cond_variavel : option string;
  cond_operador : option string;
  cond_valor : option valor
}.

Record resultado : Type := Resultado {
  res_risco : option string;
  res_acao : option string
}.

Record regra : Type := Regra {
  regra_id : option string;
  regra_prioridade : option Z;
  regra_descricao : option string;
  regra_condicoes : option (list condicao);
  regra_resultado : option resultado
}.

Record MotorInferencia : Type := Motor { regras : list regra }.

(** What [open] followed by [json.load] produced in [__init__]. *)
Inductive leitura_regras : Type :=
  | FileNotFoundError
  | JSONDecodeError
  | JsonLido (rs : list regra).

(** A data frame: its column labels and its rows in index order. *)
Record DataFrame : Type := Frame {
  colunas : list string;
  linhas : list (gmap string valor)
}.

(** The three exits of the [try] block of [processar_dataset]: the file is
    missing, any other exception of [read_csv] or of the conversion of the
    [timestamp] column, or the frame that was read. *)
Inductive leitura_csv : Type :=
  | CsvNaoEncontrado
  | CsvErro
  | CsvLido (df : DataFrame).

(** ** Python comparisons on values *)

Definition py_eq (a b : valor) : bool :=
  match a, b with
  | VNum x, VNum y => Qeq_bool x y
  | VStr s, VStr t => String.eqb s t
  | VData t1, VData t2 => (t1 =? t2)%Z
  | _, _ => false
  end.

Definition py_lt (a b : valor) : res bool :=
  match a, b with
  | VNum x, VNum y => Ok (negb (Qle_bool y x))
  | VStr s, VStr t => Ok (String.ltb s t)
  | VData t1, VData t2 => Ok (t1 <? t2)%Z
  | _, _ => Raise TypeError
  end.

Definition py_le (a b : valor) : res bool :=
  match a, b with
  | VNum x, VNum y => Ok (Qle_bool x y)
  | VStr s, VStr t => Ok (String.leb s t)
  | VData t1, VData t2 => Ok (t1 <=? t2)%Z
  | _, _ => Raise TypeError
  end.

Definition py_gt (a b : valor) : res bool := py_lt b a.
Definition py_ge (a b : valor) : res bool := py_le b a.

(** ** [MotorInferencia._verificar_condicao] *)

Definition _verificar_condicao
    (alerta_valor : valor) (operador : string) (regra_valor : valor) : res bool :=
  if String.eqb operador ">" then py_gt alerta_valor regra_valor
  else if String.eqb operador "<" then py_lt alerta_valor regra_valor
  else if String.eqb operador "==" then Ok (py_eq alerta_valor regra_valor)
  else if String.eqb operador "!=" then Ok (negb (py_eq alerta_valor regra_valor))
  else if String.eqb operador ">=" then py_ge alerta_valor regra_valor
  else if String.eqb operador "<=" then py_le alerta_valor regra_valor
  else Ok false.

(** ** [MotorInferencia.avaliar_alerta] *)

(** The body of the inner loop for one [condicao]: [Ok false] is a [break]
    with [condicoes_cumpridas = False], [Ok true] lets the loop go on. *)
Definition condicao_cumprida
    (alerta_row : gmap string valor) (condicao : condicao) : res bool :=
  variavel ← obter "variavel" (cond_variavel condicao);
  match alerta_row !! variavel with
  | None => Ok false
  | Some alerta_valor =>
      operador ← obter "operador" (cond_operador condicao);
      regra_valor ← obter "valor" (cond_valor condicao);
      _verificar_condicao alerta_valor operador regra_valor
  end.

(** The inner [for condicao in regra['condicoes']] loop; the returned boolean
    is the flag [condicoes_cumpridas] when the loop is left. *)
Fixpoint condicoes_cumpridas
    (alerta_row : gmap string valor) (cs : list condicao) : res bool :=
  match cs with
  | [] => Ok true
  | condicao :: resto =>
      b ← condicao_cumprida alerta_row condicao;
      if b : bool then condicoes_cumpridas alerta_row resto else Ok false
  end.

Definition regra_cumprida
    (alerta_row : gmap string valor) (r : regra) : res bool :=
  cs ← obter "condicoes" (regra_condicoes r);
  condicoes_cumpridas alerta_row cs.

(** The tuple built by the [return] inside the loop, read left to right. *)
Definition retorno (r : regra) : res (string * string * string) :=
  rs1 ← obter "resultado" (regra_resultado r);
  risco ← obter "risco" (res_risco rs1);
  rs2 ← obter "resultado" (regra_resultado r);
  acao ← obter "acao" (res_acao rs2);
  i ← obter "id" (regra_id r);
  Ok (risco, acao, i).

Definition sem_regra : string * string * string :=
  ("NORMAL", "Monitorização de rotina.", "SEM_REGRA").

Fixpoint avaliar_regras
    (rs : list regra) (alerta_row : gmap string valor)
    : res (string * string * string) :=
  match rs with
  | [] => Ok sem_regra
  | r :: resto =>
      b ← regra_cumprida alerta_row r;
      if b : bool then retorno r else avaliar_regras resto alerta_row
  end.

Definition avaliar_alerta
    (self : MotorInferencia) (alerta_row : gmap string valor)
    : res (string * string * string) :=
  avaliar_regras (regras self) alerta_row.

(** ** [MotorInferencia.__init__] *)

(** [list.sort(key=...)]: the keys are computed for every element first, then
    the decorated list is sorted stably on the keys. *)
Fixpoint inserir {A} (k : Z) (x : A) (l : list (Z * A)) : list (Z * A) :=
  match l with
  | [] => [(k, x)]
  | (k', y) :: l' =>
      if (k <=? k')%Z then (k, x) :: (k', y) :: l'
      else (k', y) :: inserir k x l'
  end.

Fixpoint ordenar {A} (l : list (Z * A)) : list (Z * A) :=
  match l with
  | [] => []
  | (k, x) :: l' => inserir k x (ordenar l')
  end.

Fixpoint chaves (rs : list regra) : res (list (Z * regra)) :=
  match rs with
  | [] => Ok []
  | r :: resto =>
      k ← obter "prioridade" (regra_prioridade r);
      ks ← chaves resto;
      Ok ((k, r) :: ks)
  end.

Definition sort_prioridade (rs : list regra) : res (list regra) :=
  ks ← chaves rs;
  Ok (snd <$> ordenar ks).

Definition __init__ (ficheiro_regras : leitura_regras) : res MotorInferencia :=
  match ficheiro_regras with
  | JsonLido rs =>
      ordenadas ← sort_prioridade rs;
      Ok (Motor ordenadas)
  | FileNotFoundError => Ok (Motor [])
  | JSONDecodeError => Ok (Motor [])
  end.

(** ** [MotorInferencia.processar_dataset] *)

Fixpoint aplicar
    (self : MotorInferencia) (ls : list (gmap string valor))
    : res (list (string * string * string)) :=
  match ls with
  | [] => Ok []
  | row :: resto =>
      t ← avaliar_alerta self row;
      ts ← aplicar self resto;
      Ok (t :: ts)
  end.

(** [df.apply(..., axis=1, result_type='expand')] followed by the renaming of
    the three result columns and the column-wise [concat].  On a frame with no
    rows pandas does not call the function: [apply] hands back a copy of the
    frame itself, so the assignment of three column names raises [ValueError]
    unless the frame happens to have three columns. *)
Definition processar_dataset
    (self : MotorInferencia) (ficheiro_csv : leitura_csv)
    : res (option (list (gmap string valor * (string * string * string)))) :=
  match regras self with
  | [] => Ok None
  | _ :: _ =>
      match ficheiro_csv with
      | CsvNaoEncontrado => Ok None
      | CsvErro => Ok None
      | CsvLido df =>
          match linhas df with
          | [] =>
              if (length (colunas df) =? 3)%nat then Ok (Some [])
              else Raise ValueError
          | _ :: _ =>
              resultados ← aplicar self (linhas df);
              Ok (Some (zip (linhas df) resultados))
          end
      end
  end.

(** ** The example rule base written by the script *)

Definition cond (v op : string) (x : valor) : condicao :=
  Condicao (Some v) (Some op) (Some x).

Definition regra_completa
    (i : string) (p : Z) (d : string) (cs : list condicao) (risco acao : string)
    : regra :=
  Regra (Some i) (Some p) (Some d) (Some cs)
        (Some (Resultado (Some risco) (Some acao))).

Definition regras_json : list regra :=
  [ regra_completa "REGRA_CRITICA_01" 1 "Temp > 40 E Hum < 20"
      [cond "temp" ">" (VNum 40); cond "hum" "<" (VNum 20)]
      "CRÍTICO" "Mobilização imediata.";
    regra_completa "REGRA_ALTA_01" 2 "Evento 'raio_seco'"
      [cond "event_type" "==" (VStr "raio_seco")]
      "ALTO" "Enviar vigilância.";
    regra_completa "REGRA_ALTA_02" 2 "Temp > 38 E Hum < 30"
      [cond "temp" ">" (VNum 38); cond "hum" "<" (VNum 30)]
      "ALTO" "Reforçar vigilância.";
    regra_completa "REGRA_MEDIA_01" 3 "Temp > 35"
      [cond "temp" ">" (VNum 35)]
      "MÉDIO" "Aviso à população.";
    regra_completa "REGRA_BAIXA_01" 4 "Vento > 40"
      [cond "wind" ">" (VNum 40)]
      "BAIXO" "Monitorizar." ].

(** A row of the simulated data, at the first timestamp of the generator. *)
Definition linha (temp hum wind : Q) (event_type : string) : gmap string valor :=
  {[ "timestamp" := VData 1719792000000000000; "zone" := VStr "Sintra";
     "temp" := VNum temp; "hum" := VNum hum; "wind" := VNum wind;
     "event_type" := VStr event_type ]}.

(** ** What it means for a condition and a rule to hold on a row *)

(** The condition holds: its field is in the row and the comparison of the
    row's value with the operand is true. *)
Inductive cumprida (row : gmap string valor) (c : condicao) : Prop :=
  | cumprida_comparacao v a op x :
      cond_variavel c = Some v → row !! v = Some a →
      cond_operador c = Some op → cond_valor c = Some x →
      _verificar_condicao a op x = Ok true →
      cumprida row c.

(** The condition fails: its field is not in the row, or the comparison is
    false. *)
Inductive falhada (row : gmap string valor) (c : condicao) : Prop :=
  | falhada_ausente v :
      cond_variavel c = Some v → row !! v = None →
      falhada row c
  | falhada_comparacao v a op x :
      cond_variavel c = Some v → row !! v = Some a →
      cond_operador c = Some op → cond_valor c = Some x →
      _verificar_condicao a op x = Ok false →
      falhada row c.

(** All the conditions of the rule hold. *)
Definition cumpre (row : gmap string valor) (r : regra) : Prop :=
  ∃ cs, regra_condicoes r = Some cs ∧ Forall (cumprida row) cs.

(** Some condition of the rule fails and those declared before it hold;
    nothing is asked of the conditions declared after it. *)
Definition nao_cumpre (row : gmap string valor) (r : regra) : Prop :=
  ∃ cs1 c cs2,
    regra_condicoes r = Some (cs1 ++ c :: cs2) ∧
    Forall (cumprida row) cs1 ∧ falhada row c.

(** The rule carries the three keys read by the [return]. *)
Definition devolve (r : regra) (risco acao i : string) : Prop :=
  regra_resultado r = Some (Resultado (Some risco) (Some acao)) ∧
  regra_id r = Some i.

(** ** Operators and kinds of values *)

Definition ordem (op : string) : bool :=
  String.eqb op ">" || String.eqb op "<" || String.eqb op ">=" || String.eqb op "<=".

Definition reconhecido (op : string) : bool :=
  ordem op || String.eqb op "==" || String.eqb op "!=".

Definition mesmo_tipo (a x : valor) : bool :=
  match a, x with
  | VNum _, VNum _ => true
  | VStr _, VStr _ => true
  | VData _, VData _ => true
  | _, _ => false
  end.

(** Every key that [avaliar_alerta] may read is in the dicts of the rule. *)
Definition condicao_completa (c : condicao) : Prop :=
  is_Some (cond_variavel c) ∧ is_Some (cond_operador c) ∧ is_Some (cond_valor c).

Definition regra_com_chaves (r : regra) : Prop :=
  ∃ i cs risco acao,
    regra_id r = Some i ∧ regra_condicoes r = Some cs ∧
    regra_resultado r = Some (Resultado (Some risco) (Some acao)) ∧
    Forall condicao_completa cs.

(** An ordering operator of the condition meets, in the row, a value of the
    kind of its operand. *)
Definition comparavel (row : gmap string valor) (c : condicao) : Prop :=
  ∀ v a op x,
    cond_variavel c = Some v → row !! v = Some a →
    cond_operador c = Some op → cond_valor c = Some x →
    ordem op = true → mesmo_tipo a x = true.

Definition comparaveis (row : gmap string valor) (r : regra) : Prop :=
  ∀ cs, regra_condicoes r = Some cs → Forall (comparavel row) cs.

(** ** Order of the rule base *)

Definition prio_le (r1 r2 : regra) : Prop :=
  ∃ p1 p2, regra_prioridade r1 = Some p1 ∧ regra_prioridade r2 = Some p2 ∧
           (p1 ≤ p2)%Z.

Definition prio_lt (r1 r2 : regra) : Prop :=
  ∃ p1 p2, regra_prioridade r1 = Some p1 ∧ regra_prioridade r2 = Some p2 ∧
           (p1 < p2)%Z.

Definition tem_prioridade (r : regra) : Prop := is_Some (regra_prioridade r).

(** The order of the decorated list. *)
Definition chave_le {A} : relation (Z * A) := λ e1 e2, (e1.1 ≤ e2.1)%Z.

(** A rule paired with its sort key. *)
Definition decorar (r : regra) : Z * regra :=
  (default 0%Z (regra_prioridade r), r).

(** Rules and rows on which the theorems below are run. *)

(** Fails on its first condition; its second condition compares a string
    with a number. *)
Definition regra_para_cedo : regra :=
  regra_completa "R1" 1 "Temp > 40 E evento < 1"
    [cond "temp" ">" (VNum 40); cond "event_type" "<" (VNum 1)]
    "CRÍTICO" "Mobilização imediata.".

Definition regra_raio : regra :=
  regra_completa "R2" 2 "Evento 'raio_seco'"
    [cond "event_type" "==" (VStr "raio_seco")]
    "ALTO" "Enviar vigilância.".

(** A rule that has only an id and a priority. *)
Definition regra_so_id : regra := Regra (Some "R3") (Some 3%Z) None None None.

(** A condition on the wind that lacks its operand. *)
Definition cond_vento : condicao := Condicao (Some "wind") (Some ">") None.

Definition regra_vento : regra :=
  regra_completa "R1" 1 "Temp > 40 E vento"
    [cond "temp" ">" (VNum 40); cond_vento] "BAIXO" "Monitorizar.".

(** A rule that always applies. *)
Definition regra_geral : regra :=
  regra_completa "R9" 9 "Sempre" [] "BAIXO" "Monitorizar.".

(** A row without the [wind] and [hum] columns. *)
Definition linha_sem_vento : gmap string valor :=
  {[ "temp" := VNum 42; "event_type" := VStr "raio_seco" ]}.

(** The example rule base in another declaration order. *)
Definition regras_baralhadas : list regra :=
  [ regra_completa "REGRA_MEDIA_01" 3 "Temp > 35"
      [cond "temp" ">" (VNum 35)]
      "MÉDIO" "Aviso à população.";
    regra_completa "REGRA_ALTA_02" 2 "Temp > 38 E Hum < 30"
      [cond "temp" ">" (VNum 38); cond "hum" "<" (VNum 30)]
      "ALTO" "Reforçar vigilância.";
    regra_completa "REGRA_CRITICA_01" 1 "Temp > 40 E Hum < 20"
      [cond "temp" ">" (VNum 40); cond "hum" "<" (VNum 20)]
      "CRÍTICO" "Mobilização imediata.";
    regra_completa "REGRA_ALTA_01" 2 "Evento 'raio_seco'"
      [cond "event_type" "==" (VStr "raio_seco")]
      "ALTO" "Enviar vigilância." ].

(** A rule that orders the event type against a number. *)
Definition regra_evento_numero : regra :=
  regra_completa "R1" 1 "Evento > 1"
    [cond "event_type" ">" (VNum 1)] "ALTO" "Enviar vigilância.".

(** A rule that orders the event type against a string. *)
Definition regra_evento_texto : regra :=
  regra_completa "R1" 1 "Evento > 'nenhum'"
    [cond "event_type" ">" (VStr "nenhum")] "ALTO" "Enviar vigilância.".

(** A rule whose condition has no operator, and one whose operator is not
    one of the six. *)
Definition regra_sem_operador : regra :=
  regra_completa "R1" 1 "Temp 40"
    [Condicao (Some "temp") None (Some (VNum 40))] "ALTO" "Enviar vigilância.".

Definition regra_operador_estranho : regra :=
  regra_completa "R2" 2 "Temp =~ 40"
    [cond "temp" "=~" (VNum 40)] "ALTO" "Enviar vigilância.".

(** The columns written by the generator of simulated data. *)
Definition colunas_alertas : list string :=
  ["timestamp"; "zone"; "temp"; "hum"; "wind"; "event_type"].

(** A row whose temperature cell holds text. *)
Definition linha_temp_texto : gmap string valor :=
  <[ "temp" := VStr "n/d" ]> (linha 20 50 10 "nenhum").

(** Three rows of simulated data. *)
Definition alertas : DataFrame :=
  Frame colunas_alertas
    [linha 42 18 10 "nenhum"; linha 20 50 10 "raio_seco"; linha 20 50 10 "nenhum"].

(** ** Rows that agree on what the rules read *)

(** The two rows have the same cell, or both none, under every field named
    by a condition of the rules. *)
Definition concordam (rs : list regra) (row1 row2 : gmap string valor) : Prop :=
  ∀ r cs c v,
    r ∈ rs → regra_condicoes r = Some cs → c ∈ cs →
    cond_variavel c = Some v → row1 !! v = row2 !! v.

(** A rule that holds on the row but whose result has no action. *)
Definition regra_sem_acao : regra :=
  Regra (Some "R4") (Some 4%Z) None
        (Some [cond "temp" ">" (VNum 35)])
        (Some (Resultado (Some "MÉDIO") None)).

(** ** The training data of the network (bayer_alerts.py)

    [gerar_dados_incendio] draws its numbers from [np.random]; the draws of
    one iteration, with the humidity as it stands after the subtraction of
    half the temperature, are the input of the model of that iteration. *)

Definition Qgt_bool (x y : Q) : bool := negb (Qle_bool x y).
Definition Qlt_bool (x y : Q) : bool := negb (Qle_bool y x).

(** [np.clip(x, lo, hi)]. *)
Definition clip (x lo hi : Q) : Q := Qmin (Qmax x lo) hi.

(** The value of [score] after the six tests. *)
Definition pontuacao (temp hum wind : Q) : Z :=
  let score := 0%Z in
  let score := if Qgt_bool temp 30 then (score + 2)%Z else score in
  let score := if Qgt_bool temp 38 then (score + 3)%Z else score in
  let score := if Qlt_bool hum 40 then (score + 1)%Z else score in
  let score := if Qlt_bool hum 20 then (score + 3)%Z else score in
  let score := if Qgt_bool wind 40 then (score + 1)%Z else score in
  let score := if Qgt_bool wind 60 then (score + 2)%Z else score in
  score.

Definition risco_de (score : Z) : string :=
  if (5 <? score)%Z then "Alto"
  else if (2 <? score)%Z then "Medio"
  else "Baixo".

(** The draws of one iteration: the three measures, the number compared
    with 0.1 and the label that [np.random.choice] gives when it is called. *)
Record tiragem : Type := Tiragem {
  t_temp : Q;
  t_hum : Q;
  t_wind : Q;
  t_rand : Q;
  t_escolha : string
}.

Record registo : Type := Registo {
  reg_temp : Q;
  reg_hum : Q;
  reg_wind : Q;
  reg_risco : string
}.

(** The dict appended to [data] by one iteration. *)
Definition registo_de (t : tiragem) : registo :=
  let risco := risco_de (pontuacao (t_temp t) (t_hum t) (t_wind t)) in
  let risco := if Qlt_bool (t_rand t) (1 # 10) then t_escolha t else risco in
  {| reg_temp := clip (t_temp t) 0 50;
     reg_hum := clip (t_hum t) 10 100;
     reg_wind := clip (t_wind t) 0 100;
     reg_risco := risco |}.

Definition gerar_dados_incendio (ts : list tiragem) : list registo :=
  registo_de <$> ts.

(** [pd.cut(x, bins, labels, right=False)]: the label of the interval
    [[a, b)] of consecutive bins that holds [x], and NaN when there is none. *)
Fixpoint cut (bins : list Q) (labels : list string) (x : Q) : option string :=
  match bins, labels with
  | a :: ((b :: _) as bins'), l :: labels' =>
      if Qle_bool a x && negb (Qle_bool b x) then Some l
      else cut bins' labels' x
  | _, _ => None
  end.

Record registo_discreto : Type := Discreto {
  Calor : option string;
  Humidade : option string;
  Vento : option string;
  RiscoIncendio : string
}.

Definition discretizar (r : registo) : registo_discreto :=
  {| Calor := cut [0; 30; 38; 51]%Q ["Normal"; "Alto"; "Extremo"] (reg_temp r);
     Humidade := cut [0; 30; 60; 101]%Q ["Seco"; "Normal"; "Humido"] (reg_hum r);
     Vento := cut [0; 30; 60; 101]%Q ["Fraco"; "Moderado"; "Forte"] (reg_wind r);
     RiscoIncendio := reg_risco r |}.

Definition discretizar_dados (df : list registo) : list registo_discreto :=
  discretizar <$> df.

(** [df.dropna()] on a discretized frame: the rows without NaN. *)
Definition sem_nan (d : registo_discreto) : bool :=
  bool_decide (is_Some (Calor d)) && bool_decide (is_Some (Humidade d))
  && bool_decide (is_Some (Vento d)).

Definition dropna (df : list registo_discreto) : list registo_discreto :=
  filter (λ d, sem_nan d = true) df.

(** ** The simulated alerts ([gerar_dados_simulados], rules_engine.py)

    The draws of [np.random] in an iteration and the rounding of a float to
    one decimal are inputs of the model; the frame is the one written to the
    file that [processar_dataset] reads back. *)

Record sorteio : Type := Sorteio {
  s_zona : string;
  s_temp : Q;
  s_hum : Q;
  s_wind : Q;
  s_event : string
}.

Section Gerador.
Variable arredondar : Q → Q.
Variable fonte : nat → sorteio.

(** The dict appended to [data] in iteration [i]; the timestamp is the first
    of July 2024 plus [3 * i] hours. *)
Definition alerta_simulado (i : nat) : gmap string valor :=
  let timestamp := ((1719792000 + 10800 * Z.of_nat i) * 1000000000)%Z in
  let zona := s_zona (fonte i) in
  let temp := s_temp (fonte i) in
  let hum := s_hum (fonte i) in
  let wind := s_wind (fonte i) in
  let event_type := s_event (fonte i) in
  let temp := if (i mod 20 =? 0)%nat then 42%Q else temp in
  let hum := if (i mod 20 =? 0)%nat then 18%Q else hum in
  let event_type := if (i mod 15 =? 0)%nat then "raio_seco" else event_type in
  {[ "timestamp" := VData timestamp;
     "zone" := VStr zona;
     "temp" := VNum (arredondar (clip temp 15 50));
     "hum" := VNum (arredondar (clip hum 10 90));
     "wind" := VNum (arredondar (clip wind 0 80));
     "event_type" := VStr event_type ]}.

Definition gerar_dados_simulados (n_records : nat) : DataFrame :=
  Frame colunas_alertas (alerta_simulado <$> seq 0 n_records).
End Gerador.

(** The selection of the report of the script:
    [df_final[df_final['risco'] != 'NORMAL']]. *)
Definition casos_com_acao
    (df_final : list (gmap string valor * (string * string * string)))
    : list (gmap string valor * (string * string * string)) :=
  filter (λ par, par.2.1.1 ≠ "NORMAL") df_final.

(** A rounding to one decimal on the rationals, and a source of draws that
    always draws the same. *)
Definition arredondar_decimal (q : Q) : Q := Qfloor (q * 10 + (1 # 2)) # 10.

Definition fonte_fixa (i : nat) : sorteio :=
  Sorteio "Sintra" (317 # 10) (442 # 10) 25 "nenhum".

Example exemplo_critico :
  avaliar_regras regras_json (linha 42 18 10 "nenhum")
  = Ok ("CRÍTICO", "Mobilização imediata.", "REGRA_CRITICA_01").
Proof. vm_compute. reflexivity. Qed.

Example exemplo_raio :
  avaliar_regras regras_json (linha 20 50 10 "raio_seco")
  = Ok ("ALTO", "Enviar vigilância.", "REGRA_ALTA_01").
Proof. vm_compute. reflexivity. Qed.

Example exemplo_normal :
  avaliar_regras regras_json (linha 20.5 50 10 "nenhum") = Ok sem_regra.
Proof. vm_compute. reflexivity. Qed.

(** ** Evaluation of conditions and rules *)

Section Avaliacao.
Context (row : gmap string valor).

Lemma condicao_cumprida_true c :
  condicao_cumprida row c = Ok true ↔ cumprida row c.
Proof.
  unfold condicao_cumprida. split.
  - destruct (cond_variavel c) as [v|] eqn:Hv; [simpl|done].
    destruct (row !! v) as [a|] eqn:Ha; [|done].
    destruct (cond_operador c) as [op|] eqn:Hop; [simpl|done].
    destruct (cond_valor c) as [x|] eqn:Hx; [simpl|done].
    intros H. by econstructor.
  - intros [v a op x -> Ha -> -> H]. simpl. by rewrite Ha.
Qed.

Lemma condicao_cumprida_false c :
  condicao_cumprida row c = Ok false ↔ falhada row c.
Proof.
  unfold condicao_cumprida. split.
  - destruct (cond_variavel c) as [v|] eqn:Hv; [simpl|done].
    destruct (row !! v) as [a|] eqn:Ha; [|intros _; by eapply falhada_ausente].
    destruct (cond_operador c) as [op|] eqn:Hop; [simpl|done].
    destruct (cond_valor c) as [x|] eqn:Hx; [simpl|done].
    intros H. by eapply falhada_comparacao.
  - intros [v -> Ha|v a op x -> Ha -> -> H]; simpl; by rewrite Ha.
Qed.

Lemma condicoes_cumpridas_todas cs :
  Forall (cumprida row) cs → condicoes_cumpridas row cs = Ok true.
Proof.
  induction 1 as [|c cs Hc _ IH]; [done|].
  apply condicao_cumprida_true in Hc. simpl. by rewrite Hc.
Qed.

(** The loop leaves at the first failing condition: what follows it is not
    looked at. *)
Lemma condicoes_cumpridas_break cs1 c cs2 :
  Forall (cumprida row) cs1 → falhada row c →
  condicoes_cumpridas row (cs1 ++ c :: cs2) = Ok false.
Proof.
  intros H1 Hc. induction H1 as [|c1 cs1 Hc1 _ IH]; simpl.
  - apply condicao_cumprida_false in Hc. by rewrite Hc.
  - apply condicao_cumprida_true in Hc1. by rewrite Hc1.
Qed.

Lemma condicoes_cumpridas_true_inv cs :
  condicoes_cumpridas row cs = Ok true → Forall (cumprida row) cs.
Proof.
  induction cs as [|c cs IH]; simpl; [by constructor|].
  destruct (condicao_cumprida row c) as [[]|] eqn:Hc; simpl; try done.
  intros H. constructor; [by apply condicao_cumprida_true|by apply IH].
Qed.

Lemma condicoes_cumpridas_false_inv cs :
  condicoes_cumpridas row cs = Ok false →
  ∃ cs1 c cs2, cs = cs1 ++ c :: cs2 ∧ Forall (cumprida row) cs1 ∧ falhada row c.
Proof.
  induction cs as [|c cs IH]; simpl; [done|].
  destruct (condicao_cumprida row c) as [[]|] eqn:Hc; simpl; try done.
  - intros (cs1 & c' & cs2 & -> & H1 & H2)%IH.
    exists (c :: cs1), c', cs2. split_and!; [done| |done].
    constructor; [by apply condicao_cumprida_true|done].
  - intros _. exists [], c, cs. split_and!; [done|constructor|].
    by apply condicao_cumprida_false.
Qed.

Lemma regra_cumprida_true r : regra_cumprida row r = Ok true ↔ cumpre row r.
Proof.
  unfold regra_cumprida, cumpre. split.
  - destruct (regra_condicoes r) as [cs|]; [simpl|done].
    intros H%condicoes_cumpridas_true_inv. eauto.
  - intros (cs & -> & H). simpl. by apply condicoes_cumpridas_todas.
Qed.

Lemma regra_cumprida_false r :
  regra_cumprida row r = Ok false ↔ nao_cumpre row r.
Proof.
  unfold regra_cumprida, nao_cumpre. split.
  - destruct (regra_condicoes r) as [cs|]; [simpl|done].
    intros (cs1 & c & cs2 & -> & H)%condicoes_cumpridas_false_inv.
    by exists cs1, c, cs2.
  - intros (cs1 & c & cs2 & -> & H1 & H2). simpl.
    by apply condicoes_cumpridas_break.
Qed.

Lemma retorno_devolve r risco acao i :
  devolve r risco acao i → retorno r = Ok (risco, acao, i).
Proof. intros [Hr Hi]. unfold retorno. by rewrite Hr, Hi. Qed.

(** Rules that fail are passed over. *)
Lemma avaliar_regras_salta antes depois :
  Forall (nao_cumpre row) antes →
  avaliar_regras (antes ++ depois) row = avaliar_regras depois row.
Proof.
  induction 1 as [|r antes Hr _ IH]; [done|].
  apply regra_cumprida_false in Hr. simpl. by rewrite Hr.
Qed.

(** The scan stops at the first rule that holds. *)
Lemma avaliar_regras_primeira antes r depois :
  Forall (nao_cumpre row) antes → cumpre row r →
  avaliar_regras (antes ++ r :: depois) row = retorno r.
Proof.
  intros Ha Hr. rewrite (avaliar_regras_salta _ _ Ha).
  apply regra_cumprida_true in Hr. simpl. by rewrite Hr.
Qed.

(** A rule that fails can be taken out of the rule base, wherever it is. *)
Lemma avaliar_regras_retira antes r depois :
  nao_cumpre row r →
  avaliar_regras (antes ++ r :: depois) row
  = avaliar_regras (antes ++ depois) row.
Proof.
  intros Hr%regra_cumprida_false.
  induction antes as [|r' antes IH]; simpl; [by rewrite Hr|].
  by rewrite IH.
Qed.
(** What a return of the scan says of the rule base. *)
Lemma avaliar_regras_inv rs t :
  avaliar_regras rs row = Ok t →
  (Forall (nao_cumpre row) rs ∧ t = sem_regra) ∨
  (∃ antes r depois,
     rs = antes ++ r :: depois ∧ Forall (nao_cumpre row) antes ∧
     cumpre row r ∧ retorno r = Ok t).
Proof.
  induction rs as [|r rs IH]; simpl.
  - intros [= <-]. by left.
  - destruct (regra_cumprida row r) as [[]|] eqn:Hr; simpl; [| |done].
    + intros Ht. right. exists [], r, rs. split_and!; [done|constructor| |done].
      by apply regra_cumprida_true.
    + apply regra_cumprida_false in Hr.
      intros [[H ->]|(antes & r' & depois & -> & Ha & Hr' & Ht)]%IH.
      * left. split; [by constructor|done].
      * right. exists (r :: antes), r', depois.
        split_and!; [done|by constructor|done|done].
Qed.
End Avaliacao.

(** ** Concrete rows and rules used below *)

Example linha_quente_seca :
  regra_cumprida (linha 42 18 10 "nenhum") (regra_completa "R" 1 "d"
    [cond "temp" ">" (VNum 40); cond "hum" "<" (VNum 20)] "CRÍTICO" "m")
  = Ok true.
Proof. vm_compute. reflexivity. Qed.

Example texto_ordenado :
  _verificar_condicao (VStr "raio_seco") ">" (VStr "nenhum") = Ok true.
Proof. vm_compute. reflexivity. Qed.

Example texto_contra_numero :
  _verificar_condicao (VStr "raio_seco") ">" (VNum 1) = Raise TypeError.
Proof. vm_compute. reflexivity. Qed.

Example operador_desconhecido :
  _verificar_condicao (VNum 1) "=~" (VNum 1) = Ok false.
Proof. vm_compute. reflexivity. Qed.

(** Closes a goal on a concrete rule, condition or row by running the code. *)
Ltac corre :=
  lazymatch goal with
  | |- nao_cumpre _ _ => apply regra_cumprida_false; vm_compute; reflexivity
  | |- cumpre _ _ => apply regra_cumprida_true; vm_compute; reflexivity
  | |- falhada _ _ => apply condicao_cumprida_false; vm_compute; reflexivity
  | |- cumprida _ _ => apply condicao_cumprida_true; vm_compute; reflexivity
  | |- devolve _ _ _ _ => split; reflexivity
  | |- _ => vm_compute; reflexivity
  end.

(** ** The first rule that holds decides *)

(** C1: whenever the rule base is [antes ++ r :: depois], every rule of
    [antes] fails on the row (one of its conditions fails and the ones
    declared before it hold, whatever the ones after it are) and all the
    conditions of [r] hold, [avaliar_alerta] returns the risk, the action and
    the id of [r]; the rules of [depois] play no part. *)
Theorem avaliar_alerta_primeira_regra self row antes r depois risco acao i :
  regras self = antes ++ r :: depois →
  Forall (nao_cumpre row) antes →
  cumpre row r →
  devolve r risco acao i →
  avaliar_alerta self row = Ok (risco, acao, i).
Proof.
  intros Hrs Ha Hr Hd. unfold avaliar_alerta. rewrite Hrs.
  rewrite avaliar_regras_primeira by done. by apply retorno_devolve.
Qed.

Lemma avaliar_alerta_primeira_regra_witness :
  Forall (nao_cumpre (linha 20 50 10 "raio_seco")) [regra_para_cedo] ∧
  cumpre (linha 20 50 10 "raio_seco") regra_raio ∧
  avaliar_alerta (Motor [regra_para_cedo; regra_raio; regra_so_id])
                 (linha 20 50 10 "raio_seco")
  = Ok ("ALTO", "Enviar vigilância.", "R2").
Proof.
  assert (H1 : Forall (nao_cumpre (linha 20 50 10 "raio_seco")) [regra_para_cedo])
    by (repeat constructor; corre).
  assert (H2 : cumpre (linha 20 50 10 "raio_seco") regra_raio) by corre.
  split_and!; [exact H1|exact H2|].
  apply (avaliar_alerta_primeira_regra
           (Motor [regra_para_cedo; regra_raio; regra_so_id])
           (linha 20 50 10 "raio_seco") [regra_para_cedo] regra_raio [regra_so_id]);
    [reflexivity|exact H1|exact H2|corre].
Defined.

(** C3: when every rule of the rule base fails on the row, [avaliar_alerta]
    returns the default triple: risk NORMAL, the routine-monitoring action and
    the no-rule marker. *)
Theorem avaliar_alerta_sem_regra self row :
  Forall (nao_cumpre row) (regras self) →
  avaliar_alerta self row
  = Ok ("NORMAL", "Monitorização de rotina.", "SEM_REGRA").
Proof.
  intros H. unfold avaliar_alerta.
  rewrite <- (app_nil_r (regras self)). by rewrite avaliar_regras_salta.
Qed.

Lemma avaliar_alerta_sem_regra_witness :
  Forall (nao_cumpre (linha 20 50 10 "nenhum")) regras_json ∧
  avaliar_alerta (Motor regras_json) (linha 20 50 10 "nenhum")
  = Ok ("NORMAL", "Monitorização de rotina.", "SEM_REGRA").
Proof.
  assert (H : Forall (nao_cumpre (linha 20 50 10 "nenhum")) regras_json)
    by (repeat constructor; corre).
  split; [exact H|].
  apply (avaliar_alerta_sem_regra (Motor regras_json)). exact H.
Defined.

(** ** A field that the row does not have *)

Lemma condicoes_cumpridas_falha (row : gmap string valor) cs1 c cs2 :
  Forall (λ c', ∃ b, condicao_cumprida row c' = Ok b) cs1 →
  falhada row c →
  condicoes_cumpridas row (cs1 ++ c :: cs2) = Ok false.
Proof.
  intros H1 Hc%condicao_cumprida_false.
  induction H1 as [|c1 cs1 [b Hb] _ IH]; simpl; [by rewrite Hc|].
  rewrite Hb. simpl. by destruct b.
Qed.

(** C7: a condition whose field is absent from the row evaluates to false
    without raising, whatever its other keys; a rule that contains it, and
    whose conditions declared before it do not raise, does not hold, and
    [avaliar_alerta] gives what the rule base without that rule gives: the
    result of another rule or the default. *)
Theorem campo_ausente_nao_cumpre self row antes r depois cs1 c cs2 v :
  regras self = antes ++ r :: depois →
  regra_condicoes r = Some (cs1 ++ c :: cs2) →
  cond_variavel c = Some v → row !! v = None →
  Forall (λ c', ∃ b, condicao_cumprida row c' = Ok b) cs1 →
  condicao_cumprida row c = Ok false ∧
  regra_cumprida row r = Ok false ∧
  avaliar_alerta self row = avaliar_alerta (Motor (antes ++ depois)) row.
Proof.
  intros Hrs Hcs Hv Hrow H1.
  assert (Hc : falhada row c) by (by eapply falhada_ausente).
  assert (Hr : regra_cumprida row r = Ok false).
  { unfold regra_cumprida. rewrite Hcs. simpl.
    by apply condicoes_cumpridas_falha. }
  split_and!; [by apply condicao_cumprida_false|done|].
  unfold avaliar_alerta. rewrite Hrs. simpl.
  apply avaliar_regras_retira. by apply regra_cumprida_false.
Qed.

Lemma campo_ausente_nao_cumpre_witness :
  linha_sem_vento !! "wind" = None ∧
  condicao_cumprida linha_sem_vento cond_vento = Ok false ∧
  regra_cumprida linha_sem_vento regra_vento = Ok false ∧
  avaliar_alerta (Motor [regra_vento; regra_raio]) linha_sem_vento
  = avaliar_alerta (Motor [regra_raio]) linha_sem_vento.
Proof.
  split; [reflexivity|].
  apply (campo_ausente_nao_cumpre (Motor [regra_vento; regra_raio])
           linha_sem_vento [] regra_vento [regra_raio]
           [cond "temp" ">" (VNum 40)] cond_vento [] "wind");
    [reflexivity|reflexivity|reflexivity|reflexivity|].
  repeat constructor. exists true. vm_compute. reflexivity.
Defined.

(** ** A rule without conditions *)

(** C8: a rule whose list of conditions is empty holds on every row, so when
    the rules before it in the rule base fail, [avaliar_alerta] returns its
    result. *)
Theorem regra_sem_condicoes self row antes r depois risco acao i :
  regra_condicoes r = Some [] →
  regras self = antes ++ r :: depois →
  Forall (nao_cumpre row) antes →
  devolve r risco acao i →
  regra_cumprida row r = Ok true ∧
  avaliar_alerta self row = Ok (risco, acao, i).
Proof.
  intros Hcs Hrs Ha Hd.
  assert (Hr : cumpre row r) by (exists []; by split).
  split; [by apply regra_cumprida_true|].
  unfold avaliar_alerta. rewrite Hrs.
  rewrite avaliar_regras_primeira by done. by apply retorno_devolve.
Qed.

Lemma regra_sem_condicoes_witness :
  Forall (nao_cumpre (linha 20 50 10 "nenhum")) regras_json ∧
  regra_cumprida (linha 20 50 10 "nenhum") regra_geral = Ok true ∧
  avaliar_alerta (Motor (regras_json ++ [regra_geral; regra_so_id]))
                 (linha 20 50 10 "nenhum")
  = Ok ("BAIXO", "Monitorizar.", "R9").
Proof.
  assert (H : Forall (nao_cumpre (linha 20 50 10 "nenhum")) regras_json)
    by (repeat constructor; corre).
  split; [exact H|].
  apply (regra_sem_condicoes
           (Motor (regras_json ++ [regra_geral; regra_so_id]))
           (linha 20 50 10 "nenhum") regras_json regra_geral [regra_so_id]);
    [reflexivity|reflexivity|exact H|corre].
Defined.

(** ** The stable sort on the keys *)

Section Ordenacao.
Context {A : Type}.
Implicit Types (k : Z) (x : A) (l s : list (Z * A)).

Lemma inserir_perm k x l : inserir k x l ≡ₚ (k, x) :: l.
Proof.
  induction l as [|[k' y] l IH]; simpl; [done|].
  destruct (k <=? k')%Z; [done|]. rewrite IH. apply Permutation_swap.
Qed.

Lemma ordenar_perm l : ordenar l ≡ₚ l.
Proof.
  induction l as [|[k x] l IH]; simpl; [done|].
  by rewrite inserir_perm, IH.
Qed.

Lemma inserir_sorted k x l :
  StronglySorted chave_le l → StronglySorted chave_le (inserir k x l).
Proof.
  induction 1 as [|[k' y] l Hl IH Hy]; simpl.
  - repeat constructor.
  - destruct (k <=? k')%Z eqn:Hk.
    + apply Z.leb_le in Hk. constructor; [by constructor|].
      constructor; [exact Hk|].
      eapply Forall_impl; [exact Hy|]. unfold chave_le. simpl. lia.
    + apply Z.leb_gt in Hk. constructor; [done|].
      rewrite inserir_perm. constructor; [|done].
      unfold chave_le. simpl. lia.
Qed.

Lemma ordenar_sorted l : StronglySorted chave_le (ordenar l).
Proof.
  induction l as [|[k x] l IH]; simpl; [constructor|].
  by apply inserir_sorted.
Qed.

(** Insertion only goes past strictly smaller keys, so the elements of
    one key keep their order. *)
Lemma inserir_filter p k x l :
  filter (λ e, e.1 = p) (inserir k x l)
  = filter (λ e, e.1 = p) ((k, x) :: l).
Proof.
  induction l as [|[k' y] l IH]; simpl; [done|].
  destruct (k <=? k')%Z eqn:Hk; [done|]. apply Z.leb_gt in Hk.
  rewrite (filter_cons _ (k', y)), IH, !filter_cons. simpl.
  repeat case_decide; try done; lia.
Qed.

Lemma ordenar_filter p l :
  filter (λ e, e.1 = p) (ordenar l) = filter (λ e, e.1 = p) l.
Proof.
  induction l as [|[k x] l IH]; simpl; [done|].
  by rewrite inserir_filter, !filter_cons, IH.
Qed.

(** A sorted list is fixed by the sequences of its elements of each key, so
    the result of a stable sort does not depend on how it sorts. *)
Lemma ordenado_estavel_unico s s' :
  StronglySorted chave_le s → StronglySorted chave_le s' →
  (∀ p, filter (λ e, e.1 = p) s = filter (λ e, e.1 = p) s') →
  s = s'.
Proof.
  intros Hs. revert s'.
  induction Hs as [|e s Hs IH He]; intros s' Hs' Hf.
  - destruct s' as [|e' s']; [done|].
    specialize (Hf e'.1). by rewrite filter_cons_True in Hf.
  - destruct Hs' as [|e' s' Hs' He'].
    { specialize (Hf e.1). by rewrite filter_cons_True in Hf. }
    assert (Hk : e.1 = e'.1).
    { apply Z.le_antisymm.
      - assert (Hin : e' ∈ e :: s).
        { eapply (proj1 (list_elem_of_filter (λ e0, e0.1 = e'.1) _ _)).
          rewrite Hf, filter_cons_True by done. by left. }
        apply elem_of_cons in Hin as [->|Hin]; [done|].
        by eapply Forall_forall in He.
      - assert (Hin : e ∈ e' :: s').
        { eapply (proj1 (list_elem_of_filter (λ e0, e0.1 = e.1) _ _)).
          rewrite <- Hf, filter_cons_True by done. by left. }
        apply elem_of_cons in Hin as [->|Hin]; [done|].
        by eapply Forall_forall in He'. }
    assert (Hh := Hf e.1). rewrite !filter_cons_True in Hh by done.
    injection Hh as -> Ht. f_equal. apply IH; [done|]. intros p.
    destruct (decide (e'.1 = p)) as [<-|Hp]; [done|].
    specialize (Hf p). by rewrite !filter_cons_False in Hf.
Qed.

Lemma ordenar_unico l s :
  StronglySorted chave_le s →
  (∀ p, filter (λ e, e.1 = p) s = filter (λ e, e.1 = p) l) →
  s = ordenar l.
Proof.
  intros Hs Hf. apply ordenado_estavel_unico; [done|apply ordenar_sorted|].
  intros p. by rewrite ordenar_filter.
Qed.

Lemma inserir_frente k x s :
  ∃ s1 s2, inserir k x s = s1 ++ (k, x) :: s2 ∧ s = s1 ++ s2 ∧
           Forall (λ e, (e.1 < k)%Z) s1.
Proof.
  induction s as [|[k' y] s (s1 & s2 & IH1 & IH2 & IH3)]; simpl.
  - by exists [], [].
  - destruct (k <=? k')%Z eqn:Hk.
    + by exists [], ((k', y) :: s).
    + apply Z.leb_gt in Hk. exists ((k', y) :: s1), s2.
      rewrite IH1. split_and!; [done|by rewrite IH2|by constructor].
Qed.

Lemma inserir_meio k0 y s1 k x s2 :
  Forall (λ e, (e.1 ≤ k)%Z) s1 →
  ∃ s1' s2', inserir k0 y (s1 ++ (k, x) :: s2) = s1' ++ (k, x) :: s2' ∧
             Forall (λ e, e ∈ s1 ∨ (e = (k0, y) ∧ (k0 ≤ k)%Z)) s1'.
Proof.
  induction s1 as [|[k1 z] s1 IH]; intros H; simpl.
  - destruct (k0 <=? k)%Z eqn:Hk.
    + apply Z.leb_le in Hk. exists [(k0, y)], s2. split; [done|].
      constructor; [by right|constructor].
    + exists [], (inserir k0 y s2). by split.
  - apply Forall_cons in H as [H1 H]. simpl in H1.
    destruct (k0 <=? k1)%Z eqn:Hk.
    + apply Z.leb_le in Hk. exists ((k0, y) :: (k1, z) :: s1), s2.
      split; [done|]. constructor; [right; split; [done|lia]|].
      apply Forall_forall. auto.
    + destruct (IH H) as (s1' & s2' & -> & Hs). exists ((k1, z) :: s1'), s2'.
      split; [done|]. constructor; [left; left|].
      eapply Forall_impl; [exact Hs|]. simpl. intros e [?|?]; [left; by right|by right].
Qed.

(** Where an element lands: in front of it come only elements declared
    before it with a key not above its own, and elements declared after it
    with a key strictly below. *)
Lemma ordenar_separa l1 k x l2 :
  ∃ s1 s2, ordenar (l1 ++ (k, x) :: l2) = s1 ++ (k, x) :: s2 ∧
           Forall (λ e, (e ∈ l1 ∧ (e.1 ≤ k)%Z) ∨ (e ∈ l2 ∧ (e.1 < k)%Z)) s1.
Proof.
  induction l1 as [|[k0 y] l1 (s1 & s2 & IH & Hs)]; simpl.
  - destruct (inserir_frente k x (ordenar l2)) as (s1 & s2 & -> & Hl & Hs).
    exists s1, s2. split; [done|]. apply Forall_forall. intros e He. right.
    split; [|by eapply Forall_forall in Hs].
    rewrite <- (ordenar_perm l2), Hl. apply elem_of_app. by left.
  - rewrite IH.
    destruct (inserir_meio k0 y s1 k x s2) as (s1' & s2' & -> & Hs').
    { eapply Forall_impl; [exact Hs|]. simpl. intros e [[_ ?]|[_ ?]]; lia. }
    exists s1', s2'. split; [done|]. apply Forall_forall. intros e He.
    eapply Forall_forall in Hs'; [|exact He].
    destruct Hs' as [He1|[-> ?]].
    + eapply Forall_forall in Hs; [|exact He1].
      destruct Hs as [[? ?]|[? ?]]; [left|right]; split; try done. by right.
    + left. split; [by left|done].
Qed.
End Ordenacao.

(** ** Loading sorts the rule base *)

Lemma chaves_decorar rs :
  Forall tem_prioridade rs → chaves rs = Ok (decorar <$> rs).
Proof.
  induction 1 as [|r rs [p Hp] _ IH]; simpl; [done|].
  rewrite IH. unfold decorar. by rewrite Hp.
Qed.


Lemma sort_prioridade_decorar rs :
  Forall tem_prioridade rs →
  sort_prioridade rs = Ok ((ordenar (decorar <$> rs)).*2).
Proof. intros H. unfold sort_prioridade. by rewrite chaves_decorar. Qed.

Lemma decorar_chave rs :
  Forall tem_prioridade rs →
  Forall (λ e, regra_prioridade e.2 = Some e.1) (decorar <$> rs).
Proof.
  intros H. apply Forall_fmap. eapply Forall_impl; [exact H|].
  intros r [p Hp]. unfold decorar. simpl. by rewrite Hp.
Qed.

Lemma sorted_prio_le (s : list (Z * regra)) :
  Forall (λ e, regra_prioridade e.2 = Some e.1) s →
  StronglySorted chave_le s → StronglySorted prio_le (s.*2).
Proof.
  intros Hs. induction 1 as [|e s _ IH He]; simpl; [constructor|].
  apply Forall_cons in Hs as [Hk Hs]. constructor; [by apply IH|].
  apply Forall_fmap, Forall_forall. intros e' He'.
  exists e.1, e'.1. split_and!; [done| |].
  - by eapply Forall_forall in Hs.
  - by eapply Forall_forall in He.
Qed.

Lemma filter_prioridade p (s : list (Z * regra)) :
  Forall (λ e, regra_prioridade e.2 = Some e.1) s →
  filter (λ r, regra_prioridade r = Some p) (s.*2)
  = (filter (λ e, e.1 = p) s).*2.
Proof.
  induction 1 as [|e s He _ IH]; [done|].
  rewrite fmap_cons, !filter_cons, IH, He.
  repeat case_decide; simplify_eq; done.
Qed.

(** C2: a rule base whose rules all have a priority is loaded as a
    permutation of itself that is sorted by ascending priority and keeps the
    declaration order among rules of one priority.  Consequently a rule that
    holds on a row gives the result of [avaliar_alerta] as soon as the rules
    declared before it with a priority not above its own, and the rules
    declared after it with a strictly lower priority, fail on the row: of the
    rules that hold, the one of lowest priority wins, and among equal
    priorities the one declared first. *)
Theorem init_ordena_por_prioridade rs :
  Forall tem_prioridade rs →
  ∃ self,
    __init__ (JsonLido rs) = Ok self ∧
    regras self ≡ₚ rs ∧
    StronglySorted prio_le (regras self) ∧
    (∀ p, filter (λ r, regra_prioridade r = Some p) (regras self)
          = filter (λ r, regra_prioridade r = Some p) rs) ∧
    (∀ row antes r depois risco acao i,
       rs = antes ++ r :: depois →
       cumpre row r → devolve r risco acao i →
       (∀ r', r' ∈ antes → prio_le r' r → nao_cumpre row r') →
       (∀ r', r' ∈ depois → prio_lt r' r → nao_cumpre row r') →
       avaliar_alerta self row = Ok (risco, acao, i)).
Proof.
  intros Hrs. exists (Motor ((ordenar (decorar <$> rs)).*2)).
  assert (Hdec := decorar_chave rs Hrs).
  assert (Hord : Forall (λ e, regra_prioridade e.2 = Some e.1)
                   (ordenar (decorar <$> rs))) by (by rewrite ordenar_perm).
  assert (Hid : (decorar <$> rs).*2 = rs).
  { rewrite <- list_fmap_compose. apply list_fmap_id. }
  split_and!; simpl.
  - by rewrite sort_prioridade_decorar.
  - by rewrite ordenar_perm, Hid.
  - apply sorted_prio_le; [done|apply ordenar_sorted].
  - intros p. rewrite filter_prioridade, ordenar_filter by done.
    by rewrite <- filter_prioridade, Hid.
  - intros row antes r depois risco acao i -> Hr Hd Ha Hp.
    unfold avaliar_alerta. simpl. rewrite fmap_app, fmap_cons.
    destruct (ordenar_separa (decorar <$> antes) (decorar r).1 r (decorar <$> depois))
      as (s1 & s2 & Hs & H1).
    change (decorar r) with ((decorar r).1, r). rewrite Hs.
    rewrite fmap_app, fmap_cons. simpl.
    rewrite avaliar_regras_primeira; [by apply retorno_devolve| |done].
    apply Forall_fmap, Forall_forall. intros e He.
    eapply Forall_forall in H1; [|exact He].
    apply Forall_app in Hrs as [Hta Htd]. apply Forall_cons in Htd as [[p Hp'] Htd].
    destruct H1 as [[(r' & -> & Hr')%list_elem_of_fmap Hle]
                   |[(r' & -> & Hr')%list_elem_of_fmap Hlt]]; simpl.
    + apply Ha; [done|]. eapply Forall_forall in Hta as [p' Hp'']; [|exact Hr'].
      unfold decorar in Hle. rewrite Hp', Hp'' in Hle. simpl in Hle.
      by exists p', p.
    + apply Hp; [done|]. eapply Forall_forall in Htd as [p' Hp'']; [|exact Hr'].
      unfold decorar in Hlt. rewrite Hp', Hp'' in Hlt. simpl in Hlt.
      by exists p', p.
Qed.

Lemma init_ordena_por_prioridade_witness :
  Forall tem_prioridade regras_baralhadas ∧
  ∃ self, __init__ (JsonLido regras_baralhadas) = Ok self ∧
          avaliar_alerta self (linha 39 25 10 "raio_seco")
          = Ok ("ALTO", "Reforçar vigilância.", "REGRA_ALTA_02").
Proof.
  assert (H : Forall tem_prioridade regras_baralhadas)
    by (repeat constructor; by eexists).
  split; [exact H|].
  destruct (init_ordena_por_prioridade regras_baralhadas H)
    as (self & Hi & _ & _ & _ & Hw).
  exists self. split; [exact Hi|].
  apply (Hw (linha 39 25 10 "raio_seco")
            (take 1 regras_baralhadas)
            (regra_completa "REGRA_ALTA_02" 2 "Temp > 38 E Hum < 30"
               [cond "temp" ">" (VNum 38); cond "hum" "<" (VNum 30)]
               "ALTO" "Reforçar vigilância.")
            (drop 2 regras_baralhadas)); [reflexivity|corre|corre| |].
  - intros r' Hr' (p1 & p2 & H1 & H2 & Hle).
    apply list_elem_of_singleton in Hr' as ->. simpl in H1, H2.
    simplify_eq. lia.
  - intros r' Hr' (p1 & p2 & H1 & H2 & Hlt). simpl in Hr'.
    apply elem_of_cons in Hr' as [->|Hr']; [corre|].
    apply list_elem_of_singleton in Hr' as ->. simpl in H1, H2.
    simplify_eq. lia.
Defined.

(** ** Ordering operators and kinds of values *)

Lemma verificar_sem_erro a op x :
  (ordem op = true → mesmo_tipo a x = true) →
  ∃ b, _verificar_condicao a op x = Ok b.
Proof.
  unfold _verificar_condicao, ordem. intros H.
  repeat (destruct (String.eqb op _); simpl in H);
    try (specialize (H eq_refl)); destruct a, x; simpl in *; eauto; done.
Qed.

Lemma verificar_tipos_diferentes a op x :
  ordem op = true → mesmo_tipo a x = false →
  _verificar_condicao a op x = Raise TypeError.
Proof.
  unfold _verificar_condicao, ordem. intros Hop Hax.
  destruct (String.eqb op ">") eqn:H1; [by destruct a, x|].
  destruct (String.eqb op "<") eqn:H2; [by destruct a, x|].
  destruct (String.eqb op "==") eqn:H3.
  { apply String.eqb_eq in H3 as ->. done. }
  destruct (String.eqb op "!=") eqn:H4.
  { apply String.eqb_eq in H4 as ->. done. }
  destruct (String.eqb op ">=") eqn:H5; [by destruct a, x|].
  destruct (String.eqb op "<=") eqn:H6; [by destruct a, x|done].
Qed.

Lemma condicao_sem_erro row c :
  condicao_completa c → comparavel row c →
  ∃ b, condicao_cumprida row c = Ok b.
Proof.
  intros ([v Hv] & [op Hop] & [x Hx]) Hc. unfold condicao_cumprida.
  rewrite Hv. simpl. destruct (row !! v) as [a|] eqn:Ha; [|by eexists].
  rewrite Hop, Hx. simpl. apply verificar_sem_erro. by apply (Hc v).
Qed.

Lemma condicoes_sem_erro row cs :
  Forall (λ c, ∃ b, condicao_cumprida row c = Ok b) cs →
  ∃ b, condicoes_cumpridas row cs = Ok b.
Proof.
  induction 1 as [|c cs [b Hb] _ [b' IH]]; simpl; [by eexists|].
  rewrite Hb. simpl. destruct b; by eexists.
Qed.

Lemma avaliar_regras_sem_erro row rs :
  Forall (λ r, (∃ b, regra_cumprida row r = Ok b) ∧ ∃ t, retorno r = Ok t) rs →
  ∃ t, avaliar_regras rs row = Ok t.
Proof.
  induction 1 as [|r rs [[b Hb] Ht] _ IH]; simpl; [by eexists|].
  rewrite Hb. simpl. by destruct b.
Qed.

(** C4, as the code has it: [avaliar_alerta] raises nothing and returns a
    triple when every rule has all its keys and every ordering operator meets
    two numbers or two strings; two strings are ordered lexicographically,
    so such a condition may hold; an ordering operator between a number and a
    string raises [TypeError]. *)
Theorem avaliar_alerta_tipos self row :
  Forall regra_com_chaves (regras self) →
  Forall (comparaveis row) (regras self) →
  (∃ t, avaliar_alerta self row = Ok t) ∧
  (∀ s t, _verificar_condicao (VStr s) "<" (VStr t) = Ok (String.ltb s t) ∧
          _verificar_condicao (VStr s) ">" (VStr t) = Ok (String.ltb t s) ∧
          _verificar_condicao (VStr s) "<=" (VStr t) = Ok (String.leb s t) ∧
          _verificar_condicao (VStr s) ">=" (VStr t) = Ok (String.leb t s)) ∧
  (∀ a op x, ordem op = true → mesmo_tipo a x = false →
             _verificar_condicao a op x = Raise TypeError).
Proof.
  intros Hk Hc. split_and!; [|done|apply verificar_tipos_diferentes].
  apply avaliar_regras_sem_erro.
  apply Forall_forall. intros r Hr.
  eapply Forall_forall in Hk as (i & cs & risco & acao & Hi & Hcs & Hres & Hcompl);
    [|exact Hr].
  eapply Forall_forall in Hc; [|exact Hr]. specialize (Hc cs Hcs).
  split.
  - unfold regra_cumprida. rewrite Hcs. simpl. apply condicoes_sem_erro.
    apply Forall_forall. intros c Hin. apply condicao_sem_erro.
    + by eapply Forall_forall in Hcompl.
    + by eapply Forall_forall in Hc.
  - exists (risco, acao, i). by apply retorno_devolve.
Qed.

Ltac cada_um := repeat first [apply Forall_nil_2|apply Forall_cons_2].

Ltac chaves_presentes :=
  unfold regras_json; cada_um;
  (do 4 eexists; split_and!; [reflexivity..|]);
  cada_um; split_and!; by eexists.

Ltac tipos_iguais :=
  unfold regras_json; cada_um;
  intros ? [= <-]; cada_um;
  intros v a op x Hv Ha Hop Hx Hord; simpl in Hv, Hop, Hx; simplify_eq;
  vm_compute in Ha; simplify_eq; first [reflexivity|discriminate Hord].

Lemma avaliar_alerta_tipos_witness :
  Forall regra_com_chaves (regra_evento_texto :: regras_json) ∧
  Forall (comparaveis (linha 20 50 10 "raio_seco")) (regra_evento_texto :: regras_json) ∧
  ∃ t, avaliar_alerta (Motor (regra_evento_texto :: regras_json))
                      (linha 20 50 10 "raio_seco") = Ok t.
Proof.
  assert (H1 : Forall regra_com_chaves (regra_evento_texto :: regras_json))
    by chaves_presentes.
  assert (H2 : Forall (comparaveis (linha 20 50 10 "raio_seco"))
                 (regra_evento_texto :: regras_json)) by tipos_iguais.
  split_and!; [exact H1|exact H2|].
  exact (proj1 (avaliar_alerta_tipos
                  (Motor (regra_evento_texto :: regras_json))
                  (linha 20 50 10 "raio_seco") H1 H2)).
Defined.

(** Counterexample for C4: an ordering operator between the string of the
    row and the number of the rule makes [avaliar_alerta] raise, and between
    two strings it is evaluated and may hold. *)
Lemma avaliar_alerta_TypeError :
  avaliar_alerta (Motor [regra_evento_numero]) (linha 20 50 10 "raio_seco")
  = Raise TypeError ∧
  avaliar_alerta (Motor [regra_evento_texto]) (linha 20 50 10 "raio_seco")
  = Ok ("ALTO", "Enviar vigilância.", "R1").
Proof. split; vm_compute; reflexivity. Qed.

(** ** Loading does not validate *)


Lemma verificar_nao_reconhecido a op x :
  reconhecido op = false → _verificar_condicao a op x = Ok false.
Proof.
  unfold reconhecido, ordem, _verificar_condicao. intros H.
  repeat (destruct (String.eqb op _); simpl in H; try done).
Qed.

(** C6, as the code has it: loading checks neither the fields of the rules
    nor the operators.  Every rule list whose rules have a priority is
    accepted and kept whole, whatever else is missing from its rules and
    conditions; an operator outside the six recognized ones only makes its
    condition evaluate to false. *)
Theorem init_aceita rs :
  Forall tem_prioridade rs →
  (∃ self, __init__ (JsonLido rs) = Ok self ∧ regras self ≡ₚ rs) ∧
  (∀ a op x, reconhecido op = false → _verificar_condicao a op x = Ok false).
Proof.
  intros H. split; [|apply verificar_nao_reconhecido].
  exists (Motor ((ordenar (decorar <$> rs)).*2)). simpl.
  rewrite sort_prioridade_decorar by done. split; [done|].
  rewrite ordenar_perm, <- list_fmap_compose. by rewrite list_fmap_id.
Qed.

Lemma init_aceita_witness :
  Forall tem_prioridade [regra_operador_estranho; regra_so_id; regra_sem_operador] ∧
  ∃ self,
    __init__ (JsonLido [regra_operador_estranho; regra_so_id; regra_sem_operador])
    = Ok self ∧
    regras self ≡ₚ [regra_operador_estranho; regra_so_id; regra_sem_operador].
Proof.
  assert (H : Forall tem_prioridade
                [regra_operador_estranho; regra_so_id; regra_sem_operador])
    by (repeat constructor; by eexists).
  split; [exact H|].
  exact (proj1 (init_aceita
                  [regra_operador_estranho; regra_so_id; regra_sem_operador] H)).
Defined.

(** Counterexample for C6: a rule base with a condition that has no operator,
    a rule with an unknown operator and a rule without conditions and result
    is loaded. *)
Lemma init_carrega_regras_invalidas :
  __init__ (JsonLido [regra_operador_estranho; regra_so_id; regra_sem_operador])
  = Ok (Motor [regra_sem_operador; regra_operador_estranho; regra_so_id]).
Proof. vm_compute. reflexivity. Qed.

(** The missing operator only shows when the condition is evaluated. *)
Example sem_operador_KeyError :
  avaliar_alerta (Motor [regra_sem_operador]) (linha 42 18 10 "nenhum")
  = Raise (KeyError "operador").
Proof. vm_compute. reflexivity. Qed.

(** ** Loading failures *)

(** Counterexample for C5: when the file is missing or is not JSON,
    construction succeeds and the engine holds an empty rule base. *)
Lemma init_ficheiro_em_falta :
  (∃ self, __init__ FileNotFoundError = Ok self ∧ regras self = []) ∧
  (∃ self, __init__ JSONDecodeError = Ok self ∧ regras self = []).
Proof. split; by eexists. Qed.

(** C5, as the code has it: when the file of rules is missing or is not
    valid JSON, construction succeeds with an empty rule base; that engine
    gives every row the default result and refuses every batch. *)
Theorem init_erro_lista_vazia row csv :
  __init__ FileNotFoundError = Ok (Motor []) ∧
  __init__ JSONDecodeError = Ok (Motor []) ∧
  avaliar_alerta (Motor []) row = Ok sem_regra ∧
  processar_dataset (Motor []) csv = Ok None.
Proof. done. Qed.

(** ** Batch evaluation *)

Lemma aplicar_Forall2 self ls :
  Forall (λ row, ∃ t, avaliar_alerta self row = Ok t) ls →
  ∃ ts, aplicar self ls = Ok ts ∧
        Forall2 (λ row t, avaliar_alerta self row = Ok t) ls ts.
Proof.
  induction 1 as [|row ls [t Ht] _ (ts & IH & H2)]; simpl.
  - exists []. by split.
  - exists (t :: ts). rewrite Ht, IH. split; [done|by constructor].
Qed.

(** C10: with an empty rule base [processar_dataset] returns [None] whatever
    the data set, and with any rule base it returns [None] when the file of
    records is missing or cannot be read. *)
Theorem processar_dataset_None :
  (∀ csv, processar_dataset (Motor []) csv = Ok None) ∧
  (∀ self, processar_dataset self CsvNaoEncontrado = Ok None ∧
           processar_dataset self CsvErro = Ok None).
Proof.
  split; [done|]. intros [[|r rs]]; by split.
Qed.

(** Counterexample for C9: an engine whose rule base is empty returns no
    result at all for a frame of three rows. *)
Lemma processar_dataset_sem_regras :
  processar_dataset (Motor []) (CsvLido alertas) = Ok None.
Proof. reflexivity. Qed.

(** A row on which [avaliar_alerta] raises makes the whole batch raise. *)
Example processar_dataset_TypeError :
  processar_dataset (Motor regras_json)
    (CsvLido (Frame colunas_alertas [linha 42 18 10 "nenhum"; linha_temp_texto]))
  = Raise TypeError.
Proof. vm_compute. reflexivity. Qed.

(** A frame of six columns and no rows. *)
Example processar_dataset_sem_linhas :
  processar_dataset (Motor regras_json) (CsvLido (Frame colunas_alertas []))
  = Raise ValueError.
Proof. vm_compute. reflexivity. Qed.

(** C9, as the code has it: with a rule base that is not empty and a frame
    of at least one row, on each of which [avaliar_alerta] returns,
    [processar_dataset] returns as many results as rows, in the order of the
    rows, each row paired with what [avaliar_alerta] returns on it. *)
Theorem processar_dataset_resultados self df :
  regras self ≠ [] →
  linhas df ≠ [] →
  Forall (λ row, ∃ t, avaliar_alerta self row = Ok t) (linhas df) →
  ∃ saida,
    processar_dataset self (CsvLido df) = Ok (Some saida) ∧
    length saida = length (linhas df) ∧
    ∀ n row, linhas df !! n = Some row →
             ∃ t, avaliar_alerta self row = Ok t ∧ saida !! n = Some (row, t).
Proof.
  intros Hrs Hls Hok. unfold processar_dataset.
  destruct (regras self) as [|r rs] eqn:Er; [done|].
  destruct (aplicar_Forall2 self _ Hok) as (ts & Hts & H2).
  destruct (linhas df) as [|l ls] eqn:El; [done|].
  rewrite Hts. exists (zip (l :: ls) ts). split; [done|]. split.
  - by eapply length_zip_with_same_l.
  - intros n row Hn.
    destruct (Forall2_lookup_l _ _ _ _ _ H2 Hn) as (t & Ht & Hav).
    exists t. split; [done|].
    apply lookup_zip_with_Some. by exists row, t.
Qed.

Lemma processar_dataset_resultados_witness :
  regras (Motor regras_json) ≠ [] ∧ linhas alertas ≠ [] ∧
  ∃ saida,
    processar_dataset (Motor regras_json) (CsvLido alertas) = Ok (Some saida) ∧
    length saida = length (linhas alertas) ∧
    ∀ n row, linhas alertas !! n = Some row →
             ∃ t, avaliar_alerta (Motor regras_json) row = Ok t ∧
                  saida !! n = Some (row, t).
Proof.
  split_and!; [done|done|].
  apply (processar_dataset_resultados (Motor regras_json) alertas); [done|done|].
  unfold alertas. simpl. cada_um; eexists; vm_compute; reflexivity.
Defined.

Example processar_dataset_alertas :
  processar_dataset (Motor regras_json) (CsvLido alertas)
  = Ok (Some (zip (linhas alertas)
                [("CRÍTICO", "Mobilização imediata.", "REGRA_CRITICA_01");
                 ("ALTO", "Enviar vigilância.", "REGRA_ALTA_01");
                 ("NORMAL", "Monitorização de rotina.", "SEM_REGRA")])).
Proof. vm_compute. reflexivity. Qed.


(** * Further properties of the engine *)

(** ** Where a result comes from *)

Lemma retorno_Ok r t :
  retorno r = Ok t ↔ ∃ risco acao i, devolve r risco acao i ∧ t = (risco, acao, i).
Proof.
  split.
  - unfold retorno, devolve.
    destruct (regra_resultado r) as [[[risco|] [acao|]]|]; simpl; try done.
    destruct (regra_id r) as [i|]; simpl; [|done].
    intros [= <-]. by exists risco, acao, i.
  - intros (risco & acao & i & H & ->). by apply retorno_devolve.
Qed.

(** X1: whatever [avaliar_alerta] returns is either the default triple, and
    then every rule of the rule base fails on the row, or the risk, action
    and id of a rule of the rule base that holds on the row while all the
    rules before it fail.  No other triple is ever returned. *)
Theorem avaliar_alerta_origem self row t :
  avaliar_alerta self row = Ok t →
  (Forall (nao_cumpre row) (regras self) ∧ t = sem_regra) ∨
  (∃ antes r depois risco acao i,
     regras self = antes ++ r :: depois ∧
     Forall (nao_cumpre row) antes ∧ cumpre row r ∧
     devolve r risco acao i ∧ t = (risco, acao, i)).
Proof.
  intros [H|(antes & r & depois & Hrs & Ha & Hr & Ht)]%avaliar_regras_inv;
    [by left|right].
  apply retorno_Ok in Ht as (risco & acao & i & Hd & ->).
  by exists antes, r, depois, risco, acao, i.
Qed.

Lemma avaliar_alerta_origem_witness :
  avaliar_alerta (Motor regras_json) (linha 20 50 10 "raio_seco")
  = Ok ("ALTO", "Enviar vigilância.", "REGRA_ALTA_01") ∧
  ((Forall (nao_cumpre (linha 20 50 10 "raio_seco")) regras_json ∧
    ("ALTO", "Enviar vigilância.", "REGRA_ALTA_01") = sem_regra) ∨
   (∃ antes r depois risco acao i,
      regras_json = antes ++ r :: depois ∧
      Forall (nao_cumpre (linha 20 50 10 "raio_seco")) antes ∧
      cumpre (linha 20 50 10 "raio_seco") r ∧
      devolve r risco acao i ∧
      ("ALTO", "Enviar vigilância.", "REGRA_ALTA_01") = (risco, acao, i))).
Proof.
  assert (H : avaliar_alerta (Motor regras_json) (linha 20 50 10 "raio_seco")
              = Ok ("ALTO", "Enviar vigilância.", "REGRA_ALTA_01")) by corre.
  split; [exact H|].
  exact (avaliar_alerta_origem (Motor regras_json) _ _ H).
Defined.

(** ** Only the fields that the rules name are read *)

Lemma condicao_cumprida_concorda (row1 row2 : gmap string valor) c :
  (∀ v, cond_variavel c = Some v → row1 !! v = row2 !! v) →
  condicao_cumprida row1 c = condicao_cumprida row2 c.
Proof.
  intros H. unfold condicao_cumprida.
  destruct (cond_variavel c) as [v|]; simpl; [|done]. by rewrite (H v).
Qed.

Lemma condicoes_cumpridas_concorda (row1 row2 : gmap string valor) cs :
  (∀ c v, c ∈ cs → cond_variavel c = Some v → row1 !! v = row2 !! v) →
  condicoes_cumpridas row1 cs = condicoes_cumpridas row2 cs.
Proof.
  induction cs as [|c cs IH]; intros H; simpl; [done|].
  rewrite (condicao_cumprida_concorda row1 row2 c).
  - rewrite IH; [done|]. intros c' v Hc'. apply H. by right.
  - intros v. apply H. by left.
Qed.

(** X2: two rows that agree on every field named by a condition of the rule
    base get the same outcome from [avaliar_alerta], the same triple or the
    same exception; columns that no rule names, present or not, change
    nothing. *)
Theorem avaliar_alerta_concordam self row1 row2 :
  concordam (regras self) row1 row2 →
  avaliar_alerta self row1 = avaliar_alerta self row2.
Proof.
  unfold avaliar_alerta, concordam.
  induction (regras self) as [|r rs IH]; intros H; simpl; [done|].
  assert (Hr : regra_cumprida row1 r = regra_cumprida row2 r).
  { unfold regra_cumprida. destruct (regra_condicoes r) as [cs|] eqn:Hcs; [|done].
    simpl. apply condicoes_cumpridas_concorda. intros c v Hc Hv.
    by apply (H r cs c v); [left|..]. }
  rewrite Hr, IH; [done|]. intros r' cs c v Hr'. apply H. by right.
Qed.

(** The two rows differ in their columns but not in the event type, the
    only field that the rule reads. *)
Lemma avaliar_alerta_concordam_witness :
  concordam [regra_raio] (linha 42 18 10 "raio_seco") linha_sem_vento ∧
  avaliar_alerta (Motor [regra_raio]) (linha 42 18 10 "raio_seco")
  = avaliar_alerta (Motor [regra_raio]) linha_sem_vento.
Proof.
  assert (H : concordam [regra_raio] (linha 42 18 10 "raio_seco") linha_sem_vento).
  { intros r cs c v Hr Hcs Hc Hv.
    apply list_elem_of_singleton in Hr as ->. simpl in Hcs. simplify_eq.
    apply list_elem_of_singleton in Hc as ->. simpl in Hv. simplify_eq.
    reflexivity. }
  split; [exact H|].
  exact (avaliar_alerta_concordam (Motor [regra_raio]) _ _ H).
Defined.

(** ** Rules that can never decide *)

(** X3: a rule that is written a second time further down the rule base
    never decides anything: taking the second copy out leaves the outcome of
    [avaliar_alerta] on every row as it was, triple or exception. *)
Theorem regra_repetida row antes r meio depois :
  avaliar_alerta (Motor (antes ++ r :: meio ++ r :: depois)) row
  = avaliar_alerta (Motor (antes ++ r :: meio ++ depois)) row.
Proof.
  unfold avaliar_alerta. simpl.
  induction antes as [|r' antes IH]; simpl; [|by rewrite IH].
  destruct (regra_cumprida row r) as [[]|] eqn:Hr; simpl; [done| |done].
  apply avaliar_regras_retira. by apply regra_cumprida_false.
Qed.

(** X4: the rules that come after a rule with an empty list of conditions
    are never reached: on every row [avaliar_alerta] gives what it gives
    when the rule base ends at that rule. *)
Theorem regras_apos_incondicional self row antes r depois :
  regras self = antes ++ r :: depois →
  regra_condicoes r = Some [] →
  avaliar_alerta self row = avaliar_alerta (Motor (antes ++ [r])) row.
Proof.
  intros Hrs Hcs. unfold avaliar_alerta. rewrite Hrs. clear Hrs. simpl.
  induction antes as [|r' antes IH]; simpl; [|by rewrite IH].
  unfold regra_cumprida. by rewrite Hcs.
Qed.

(** The rule without keys that follows the unconditional rule would raise if
    it were reached. *)
Lemma regras_apos_incondicional_witness :
  regra_condicoes regra_geral = Some [] ∧
  avaliar_alerta (Motor [regra_raio; regra_geral; regra_so_id])
                 (linha 20 50 10 "nenhum")
  = avaliar_alerta (Motor [regra_raio; regra_geral]) (linha 20 50 10 "nenhum").
Proof.
  split; [reflexivity|].
  apply (regras_apos_incondicional
           (Motor [regra_raio; regra_geral; regra_so_id])
           (linha 20 50 10 "nenhum") [regra_raio] regra_geral [regra_so_id]);
    reflexivity.
Defined.

(** ** When an exception leaves [avaliar_alerta] *)

(** X5: [avaliar_alerta] raises an exception exactly when the first rule of
    the rule base that does not fail on the row either raises it while its
    conditions are checked (a missing key, an ordering of a number and a
    string) or holds and lacks a key of its result; the rules after it are
    not tried. *)
Theorem avaliar_alerta_excecao self row e :
  avaliar_alerta self row = Raise e ↔
  ∃ antes r depois,
    regras self = antes ++ r :: depois ∧
    Forall (nao_cumpre row) antes ∧
    (regra_cumprida row r = Raise e ∨ (cumpre row r ∧ retorno r = Raise e)).
Proof.
  unfold avaliar_alerta. split.
  - induction (regras self) as [|r rs IH]; simpl; [done|].
    destruct (regra_cumprida row r) as [[]|e'] eqn:Hr; simpl.
    + intros Ht. exists [], r, rs. split_and!; [done|constructor|].
      right. split; [by apply regra_cumprida_true|done].
    + intros (antes & r' & depois & -> & Ha & H)%IH.
      exists (r :: antes), r', depois. split_and!; [done| |done].
      constructor; [by apply regra_cumprida_false|done].
    + intros [= ->]. exists [], r, rs. split_and!; [done|constructor|by left].
  - intros (antes & r & depois & -> & Ha & H).
    rewrite avaliar_regras_salta by done. simpl.
    destruct H as [->|[Hr%regra_cumprida_true Ht]]; [done|].
    by rewrite Hr.
Qed.

Example regra_sem_acao_KeyError :
  avaliar_alerta (Motor [regra_raio; regra_sem_acao; regra_geral])
                 (linha 36 50 10 "nenhum")
  = Raise (KeyError "acao").
Proof. vm_compute. reflexivity. Qed.

(** ** What loading raises, and what it leaves alone *)

Lemma chaves_Ok rs ks :
  chaves rs = Ok ks → Forall tem_prioridade rs.
Proof.
  revert ks. induction rs as [|r rs IH]; intros ks; simpl; [by constructor|].
  destruct (regra_prioridade r) as [p|] eqn:Hp; simpl; [|done].
  destruct (chaves rs) as [ks'|] eqn:Hks; simpl; [|done].
  intros _. constructor; [by exists p|by eapply IH].
Qed.



Lemma decorar_sorted rs :
  StronglySorted prio_le rs → StronglySorted chave_le (decorar <$> rs).
Proof.
  induction 1 as [|r rs _ IH Hr]; simpl; [constructor|].
  constructor; [done|]. apply Forall_fmap.
  eapply Forall_impl; [exact Hr|]. intros r' (p1 & p2 & H1 & H2 & Hle).
  unfold chave_le, decorar. simpl. by rewrite H1, H2.
Qed.

Lemma init_ordenadas rs :
  Forall tem_prioridade rs → StronglySorted prio_le rs →
  __init__ (JsonLido rs) = Ok (Motor rs).
Proof.
  intros Hp Hs. simpl. rewrite sort_prioridade_decorar by done. simpl.
  rewrite <- (ordenar_unico (decorar <$> rs) (decorar <$> rs));
    [|by apply decorar_sorted|done].
  rewrite <- list_fmap_compose. by rewrite list_fmap_id.
Qed.

Lemma init_ordenar rs :
  Forall tem_prioridade rs →
  __init__ (JsonLido rs) = Ok (Motor ((ordenar (decorar <$> rs)).*2)).
Proof. intros H. simpl. by rewrite sort_prioridade_decorar. Qed.

Lemma ordenar_decorar_perm rs : (ordenar (decorar <$> rs)).*2 ≡ₚ rs.
Proof.
  rewrite ordenar_perm, <- list_fmap_compose. by rewrite list_fmap_id.
Qed.

Lemma ordenar_decorar_sorted rs :
  Forall tem_prioridade rs →
  StronglySorted prio_le ((ordenar (decorar <$> rs)).*2).
Proof.
  intros H. apply sorted_prio_le; [|apply ordenar_sorted].
  rewrite ordenar_perm. by apply decorar_chave.
Qed.

(** X7: loading is idempotent: a rule base written out in the order in
    which an engine holds it is loaded as that same engine; in particular a
    rule file that is already in ascending order of priority is kept as
    written. *)
Theorem init_idempotente rs self :
  __init__ (JsonLido rs) = Ok self →
  __init__ (JsonLido (regras self)) = Ok self.
Proof.
  intros H.
  assert (Hp : Forall tem_prioridade rs).
  { simpl in H. unfold sort_prioridade in H.
    destruct (chaves rs) as [ks|] eqn:Hks; [|done]. by eapply chaves_Ok. }
  rewrite init_ordenar in H by done. injection H as <-.
  apply init_ordenadas; [|by apply ordenar_decorar_sorted].
  by rewrite ordenar_decorar_perm.
Qed.

Lemma init_idempotente_witness :
  ∃ self,
    __init__ (JsonLido regras_baralhadas) = Ok self ∧
    __init__ (JsonLido (regras self)) = Ok self.
Proof.
  exists (Motor ((ordenar (decorar <$> regras_baralhadas)).*2)).
  assert (H : __init__ (JsonLido regras_baralhadas)
              = Ok (Motor ((ordenar (decorar <$> regras_baralhadas)).*2)))
    by (vm_compute; reflexivity).
  split; [exact H|].
  exact (init_idempotente regras_baralhadas _ H).
Defined.

(** ** Which reorderings of the rule file change nothing *)

Lemma filter_decorar p rs :
  Forall tem_prioridade rs →
  filter (λ e, e.1 = p) (decorar <$> rs)
  = pair p <$> filter (λ r, regra_prioridade r = Some p) rs.
Proof.
  induction 1 as [|r rs [q Hq] _ IH]; [done|]. rewrite fmap_cons.
  assert (Hk : (decorar r).1 = q) by (unfold decorar; by rewrite Hq).
  destruct (decide (q = p)) as [->|Hne].
  - rewrite !filter_cons_True, IH by done. rewrite fmap_cons.
    f_equal. unfold decorar. by rewrite Hq.
  - rewrite !filter_cons_False, IH; [done| |]; congruence.
Qed.

(** X8: the engine that is loaded depends on the rule file only through the
    order in which the rules of each priority are written: two rule lists
    with the same sequence of rules under every priority load as the same
    engine, however the priorities are interleaved in the files. *)
Theorem init_mesma_ordem_por_prioridade rs rs' :
  Forall tem_prioridade rs → Forall tem_prioridade rs' →
  (∀ p, filter (λ r, regra_prioridade r = Some p) rs
        = filter (λ r, regra_prioridade r = Some p) rs') →
  __init__ (JsonLido rs) = __init__ (JsonLido rs').
Proof.
  intros H H' Hf. rewrite !init_ordenar by done. do 3 f_equal.
  apply ordenado_estavel_unico; [apply ordenar_sorted..|].
  intros p. by rewrite !ordenar_filter, !filter_decorar, Hf.
Qed.

Lemma init_mesma_ordem_por_prioridade_witness :
  Forall tem_prioridade regras_baralhadas ∧
  __init__ (JsonLido regras_baralhadas)
  = __init__ (JsonLido (rotate 1 regras_baralhadas)).
Proof.
  assert (H : Forall tem_prioridade regras_baralhadas)
    by (repeat constructor; by eexists).
  assert (H' : Forall tem_prioridade (rotate 1 regras_baralhadas))
    by (repeat constructor; by eexists).
  split; [exact H|].
  apply (init_mesma_ordem_por_prioridade _ _ H H').
  intros p. unfold regras_baralhadas. vm_compute rotate.
  rewrite !filter_cons, !filter_nil. simpl.
  repeat case_decide; simplify_eq; reflexivity.
Defined.

(** ** What a batch returns, and when it is lost *)

Lemma aplicar_Ok self ls ts :
  aplicar self ls = Ok ts →
  Forall2 (λ row t, avaliar_alerta self row = Ok t) ls ts.
Proof.
  revert ts. induction ls as [|row ls IH]; intros ts; simpl.
  - intros [= <-]. constructor.
  - destruct (avaliar_alerta self row) as [t|] eqn:Ht; simpl; [|done].
    destruct (aplicar self ls) as [ts'|] eqn:Hts; simpl; [|done].
    intros [= <-]. constructor; [done|by apply IH].
Qed.

Lemma aplicar_Raise self antes row depois e :
  Forall (λ row, ∃ t, avaliar_alerta self row = Ok t) antes →
  avaliar_alerta self row = Raise e →
  aplicar self (antes ++ row :: depois) = Raise e.
Proof.
  intros Ha Hrow. induction Ha as [|r antes [t Ht] _ IH]; simpl.
  - by rewrite Hrow.
  - by rewrite Ht, IH.
Qed.

(** X9: one row on which [avaliar_alerta] raises loses the whole batch:
    [processar_dataset] raises the exception of the first such row and
    returns nothing for the rows before it or after it. *)
Theorem processar_dataset_excecao self df antes row depois e :
  regras self ≠ [] →
  linhas df = antes ++ row :: depois →
  Forall (λ row, ∃ t, avaliar_alerta self row = Ok t) antes →
  avaliar_alerta self row = Raise e →
  processar_dataset self (CsvLido df) = Raise e.
Proof.
  intros Hrs Hls Ha Hrow. unfold processar_dataset.
  destruct (regras self) as [|r rs] eqn:Er; [done|].
  rewrite Hls, (aplicar_Raise _ _ _ _ _ Ha Hrow).
  by destruct antes.
Qed.

Lemma processar_dataset_excecao_witness :
  regras (Motor regras_json) ≠ [] ∧
  avaliar_alerta (Motor regras_json) linha_temp_texto = Raise TypeError ∧
  processar_dataset (Motor regras_json)
    (CsvLido (Frame colunas_alertas
                [linha 42 18 10 "nenhum"; linha_temp_texto; linha 20 50 10 "nenhum"]))
  = Raise TypeError.
Proof.
  assert (H : avaliar_alerta (Motor regras_json) linha_temp_texto = Raise TypeError)
    by (vm_compute; reflexivity).
  split_and!; [done|exact H|].
  apply (processar_dataset_excecao (Motor regras_json) _
           [linha 42 18 10 "nenhum"] linha_temp_texto [linha 20 50 10 "nenhum"]);
    [done|reflexivity| |exact H].
  cada_um. eexists. vm_compute. reflexivity.
Defined.

(** X10: whenever [processar_dataset] returns results, the rule base is not
    empty, the file was read, the rows come back unchanged and in their
    order, and beside each row stands what [avaliar_alerta] returns on it:
    no row is dropped, added or paired with the result of another. *)
Theorem processar_dataset_Some self csv saida :
  processar_dataset self csv = Ok (Some saida) →
  regras self ≠ [] ∧
  ∃ df, csv = CsvLido df ∧ saida.*1 = linhas df ∧
        Forall (λ par, avaliar_alerta self par.1 = Ok par.2) saida.
Proof.
  unfold processar_dataset.
  destruct (regras self) as [|r rs] eqn:Er; [done|].
  destruct csv as [| |df]; [done|done|]. intros H. split; [done|].
  exists df. split; [done|].
  destruct (linhas df) as [|l ls] eqn:El.
  { case_match; [|done]. injection H as <-. by split. }
  destruct (aplicar self (l :: ls)) as [ts|] eqn:Hts; [|done].
  assert (Hs : saida = zip (l :: ls) ts) by (by injection H).
  rewrite Hs. clear H Hs. apply aplicar_Ok in Hts.
  split.
  - apply fst_zip. by rewrite (Forall2_length _ _ _ Hts).
  - apply Forall_forall. intros [row t] Hin.
    apply list_elem_of_lookup in Hin as [n Hn].
    apply lookup_zip_with_Some in Hn as (row' & t' & [= -> ->] & Hl & Ht).
    simpl. exact (Forall2_lookup_lr _ _ _ n _ _ Hts Hl Ht).
Qed.

Lemma processar_dataset_Some_witness :
  ∃ saida,
    processar_dataset (Motor regras_json) (CsvLido alertas) = Ok (Some saida) ∧
    saida.*1 = linhas alertas ∧
    Forall (λ par, avaliar_alerta (Motor regras_json) par.1 = Ok par.2) saida.
Proof.
  eexists.
  assert (H : processar_dataset (Motor regras_json) (CsvLido alertas)
              = Ok (Some (zip (linhas alertas)
                   [("CRÍTICO", "Mobilização imediata.", "REGRA_CRITICA_01");
                    ("ALTO", "Enviar vigilância.", "REGRA_ALTA_01");
                    ("NORMAL", "Monitorização de rotina.", "SEM_REGRA")])))
    by (vm_compute; reflexivity).
  split; [exact H|].
  destruct (processar_dataset_Some _ _ _ H) as (_ & df & [= <-] & H1 & H2).
  split; [exact H1|exact H2].
Defined.

(** * The training data of the network *)

(** ** Clipping *)

Lemma clip_bounds x lo hi : (lo <= hi)%Q → (lo <= clip x lo hi)%Q ∧ (clip x lo hi <= hi)%Q.
Proof.
  intros H. unfold clip. split; [|apply Q.le_min_r].
  apply Q.min_glb; [apply Q.le_max_r|done].
Qed.

Lemma Qle_bool_clip_l x lo hi c :
  (lo < c)%Q → (c <= hi)%Q →
  Qle_bool c (clip x lo hi) = Qle_bool c x.
Proof.
  intros H1 H2. apply eq_true_iff_eq. rewrite !Qle_bool_iff. unfold clip.
  rewrite Q.min_glb_iff, Q.max_le_iff. split; [|tauto].
  intros [[?|?] _]; [done|lra].
Qed.

Lemma Qle_bool_clip_r x lo hi c :
  (lo <= c)%Q → (c < hi)%Q →
  Qle_bool (clip x lo hi) c = Qle_bool x c.
Proof.
  intros H1 H2. apply eq_true_iff_eq. rewrite !Qle_bool_iff. unfold clip.
  rewrite Q.min_le_iff, Q.max_lub_iff. split; [|tauto].
  intros [[? _]|?]; [done|lra].
Qed.

(** ** The score *)

Lemma pontuacao_soma temp hum wind :
  pontuacao temp hum wind
  = (2 * Z.b2z (Qgt_bool temp 30) + 3 * Z.b2z (Qgt_bool temp 38)
     + Z.b2z (Qlt_bool hum 40) + 3 * Z.b2z (Qlt_bool hum 20)
     + Z.b2z (Qgt_bool wind 40) + 2 * Z.b2z (Qgt_bool wind 60))%Z.
Proof.
  unfold pontuacao.
  by destruct (Qgt_bool temp 30), (Qgt_bool temp 38), (Qlt_bool hum 40),
    (Qlt_bool hum 20), (Qgt_bool wind 40), (Qgt_bool wind 60).
Qed.

Lemma Qgt_bool_true x y : Qgt_bool x y = true ↔ (y < x)%Q.
Proof.
  unfold Qgt_bool. rewrite negb_true_iff, <- not_true_iff_false, Qle_bool_iff.
  split; [apply Qnot_le_lt|apply Qlt_not_le].
Qed.

Lemma Qlt_bool_true x y : Qlt_bool x y = true ↔ (x < y)%Q.
Proof. apply Qgt_bool_true. Qed.

Lemma Qgt_bool_mono x x' c :
  (x <= x')%Q → (Z.b2z (Qgt_bool x c) ≤ Z.b2z (Qgt_bool x' c))%Z.
Proof.
  intros H. destruct (Qgt_bool x c) eqn:E; [|by destruct (Qgt_bool x' c)].
  apply Qgt_bool_true in E.
  assert (E' : Qgt_bool x' c = true) by (apply Qgt_bool_true; lra).
  by rewrite E'.
Qed.

Lemma Qlt_bool_anti x x' c :
  (x' <= x)%Q → (Z.b2z (Qlt_bool x c) ≤ Z.b2z (Qlt_bool x' c))%Z.
Proof.
  intros H. destruct (Qlt_bool x c) eqn:E; [|by destruct (Qlt_bool x' c)].
  apply Qlt_bool_true in E.
  assert (E' : Qlt_bool x' c = true) by (apply Qlt_bool_true; lra).
  by rewrite E'.
Qed.

(** X11: hotter, drier and windier never lowers the score, nor the label
    that the score gives before the noise: a draw that is at least as hot, at
    most as humid and at least as windy as one labelled Alto is labelled
    Alto, and one that is at most as hot, at least as humid and at most as
    windy as one labelled Baixo is labelled Baixo. *)
Theorem pontuacao_monotona temp hum wind temp' hum' wind' :
  (temp <= temp')%Q → (hum' <= hum)%Q → (wind <= wind')%Q →
  (pontuacao temp hum wind ≤ pontuacao temp' hum' wind')%Z ∧
  (risco_de (pontuacao temp hum wind) = "Alto" →
   risco_de (pontuacao temp' hum' wind') = "Alto") ∧
  (risco_de (pontuacao temp' hum' wind') = "Baixo" →
   risco_de (pontuacao temp hum wind) = "Baixo").
Proof.
  intros Ht Hh Hw.
  assert (Hs : (pontuacao temp hum wind ≤ pontuacao temp' hum' wind')%Z).
  { rewrite !pontuacao_soma.
    pose proof (Qgt_bool_mono temp temp' 30 Ht).
    pose proof (Qgt_bool_mono temp temp' 38 Ht).
    pose proof (Qlt_bool_anti hum hum' 40 Hh).
    pose proof (Qlt_bool_anti hum hum' 20 Hh).
    pose proof (Qgt_bool_mono wind wind' 40 Hw).
    pose proof (Qgt_bool_mono wind wind' 60 Hw). lia. }
  split; [done|]. unfold risco_de.
  split; repeat case_match; try done;
    repeat match goal with
           | H : (_ <? _)%Z = true |- _ => apply Z.ltb_lt in H
           | H : (_ <? _)%Z = false |- _ => apply Z.ltb_ge in H
           end; lia.
Qed.

Lemma pontuacao_monotona_witness :
  (36 <= 39)%Q ∧ (15 <= 25)%Q ∧ (50 <= 65)%Q ∧
  (pontuacao 36 25 50 ≤ pontuacao 39 15 65)%Z.
Proof.
  assert (H1 : (36 <= 39)%Q) by (vm_compute; discriminate).
  assert (H2 : (15 <= 25)%Q) by (vm_compute; discriminate).
  assert (H3 : (50 <= 65)%Q) by (vm_compute; discriminate).
  split_and!; [exact H1|exact H2|exact H3|].
  exact (proj1 (pontuacao_monotona 36 25 50 39 15 65 H1 H2 H3)).
Defined.

(** X12: the label before the noise is Alto exactly in three cases: above
    38 degrees with humidity under 40 or wind over 40; above 30 degrees with
    humidity under 20, or under 40 with wind over 60; or, at any
    temperature, humidity under 20 with wind over 60. *)
Theorem risco_Alto temp hum wind :
  risco_de (pontuacao temp hum wind) = "Alto" ↔
  ((38 < temp)%Q ∧ ((hum < 40)%Q ∨ (40 < wind)%Q)) ∨
  ((30 < temp)%Q ∧ ((hum < 20)%Q ∨ ((hum < 40)%Q ∧ (60 < wind)%Q))) ∨
  ((hum < 20)%Q ∧ (60 < wind)%Q).
Proof.
  rewrite pontuacao_soma.
  rewrite <- !(Qgt_bool_true temp), <- !(Qgt_bool_true wind), <- !Qlt_bool_true.
  assert (H1 : Qgt_bool temp 38 = true → Qgt_bool temp 30 = true).
  { rewrite !Qgt_bool_true. lra. }
  assert (H2 : Qlt_bool hum 20 = true → Qlt_bool hum 40 = true).
  { rewrite !Qlt_bool_true. lra. }
  assert (H3 : Qgt_bool wind 60 = true → Qgt_bool wind 40 = true).
  { rewrite !Qgt_bool_true. lra. }
  destruct (Qgt_bool temp 30), (Qgt_bool temp 38), (Qlt_bool hum 40),
    (Qlt_bool hum 20), (Qgt_bool wind 40), (Qgt_bool wind 60);
    try (by specialize (H1 eq_refl)); try (by specialize (H2 eq_refl));
    try (by specialize (H3 eq_refl)); vm_compute; intuition congruence.
Qed.

(** ** Clipping keeps what the score reads *)

Lemma Qgt_bool_clip x lo hi c :
  (lo <= c)%Q → (c < hi)%Q → Qgt_bool (clip x lo hi) c = Qgt_bool x c.
Proof. intros. unfold Qgt_bool. by rewrite Qle_bool_clip_r. Qed.

Lemma Qlt_bool_clip x lo hi c :
  (lo < c)%Q → (c <= hi)%Q → Qlt_bool (clip x lo hi) c = Qlt_bool x c.
Proof. intros. unfold Qlt_bool. by rewrite Qle_bool_clip_l. Qed.

Lemma pontuacao_clip temp hum wind :
  pontuacao (clip temp 0 50) (clip hum 10 100) (clip wind 0 100)
  = pontuacao temp hum wind.
Proof.
  rewrite !pontuacao_soma.
  rewrite !Qgt_bool_clip, !Qlt_bool_clip; done.
Qed.

(** X13: clipping does not move a measure across a threshold of the score,
    so the three measures kept in a record give the score of the raw draws;
    a record whose label was not replaced by the noise carries the label
    that its own measures give. *)
Theorem registo_sem_ruido t :
  (1 # 10 <= t_rand t)%Q →
  reg_risco (registo_de t)
  = risco_de (pontuacao (reg_temp (registo_de t)) (reg_hum (registo_de t))
                       (reg_wind (registo_de t))).
Proof.
  intros H. unfold registo_de. simpl. rewrite pontuacao_clip.
  assert (E : Qlt_bool (t_rand t) (1 # 10) = false).
  { apply not_true_iff_false. rewrite Qlt_bool_true. lra. }
  by rewrite E.
Qed.

(** A draw far outside the clipping ranges. *)
Lemma registo_sem_ruido_witness :
  (1 # 10 <= 1 # 2)%Q ∧
  reg_risco (registo_de (Tiragem 61 (-5) 130 (1 # 2) "Baixo")) = "Alto" ∧
  risco_de (pontuacao 50 10 100) = "Alto".
Proof.
  assert (H : (1 # 10 <= t_rand (Tiragem 61 (-5) 130 (1 # 2) "Baixo"))%Q)
    by (vm_compute; discriminate).
  split; [exact H|].
  pose proof (registo_sem_ruido (Tiragem 61 (-5) 130 (1 # 2) "Baixo") H) as E.
  split; [|reflexivity]. rewrite E. reflexivity.
Defined.

(** ** No generated record falls outside the bins *)

Lemma cut_tres a b c d l1 l2 l3 x :
  (a <= x)%Q → (x < d)%Q → is_Some (cut [a; b; c; d] [l1; l2; l3] x).
Proof.
  intros H1 H2. simpl.
  destruct (Qle_bool a x) eqn:Ea; [|apply not_true_iff_false in Ea;
    rewrite Qle_bool_iff in Ea; lra].
  destruct (Qle_bool b x) eqn:Eb; simpl; [|by eexists].
  destruct (Qle_bool c x) eqn:Ec; simpl; [|by eexists].
  destruct (Qle_bool d x) eqn:Ed; simpl; [|by eexists].
  apply Qle_bool_iff in Ed. lra.
Qed.

Lemma discretizar_registo_de t : sem_nan (discretizar (registo_de t)) = true.
Proof.
  unfold sem_nan, discretizar, registo_de. simpl.
  destruct (clip_bounds (t_temp t) 0 50) as [? ?]; [done|].
  destruct (clip_bounds (t_hum t) 10 100) as [? ?]; [done|].
  destruct (clip_bounds (t_wind t) 0 100) as [? ?]; [done|].
  rewrite !andb_true_iff, !bool_decide_eq_true.
  split_and!; apply cut_tres; lra.
Qed.

(** X14: every record that [gerar_dados_incendio] produces falls in a bin
    of each of the three discretizations, whatever the draws: the
    discretized frame has no NaN and [dropna] removes nothing from it. *)
Theorem dropna_discretizar_dados ts :
  dropna (discretizar_dados (gerar_dados_incendio ts))
  = discretizar_dados (gerar_dados_incendio ts).
Proof.
  unfold dropna, discretizar_dados, gerar_dados_incendio.
  induction ts as [|t ts IH]; [done|]. rewrite !fmap_cons.
  rewrite filter_cons_True by apply discretizar_registo_de. by rewrite IH.
Qed.

(** A measure that was not clipped can fall outside every bin. *)
Example cut_fora_dos_bins :
  cut [0; 30; 38; 51]%Q ["Normal"; "Alto"; "Extremo"] (-3) = None ∧
  cut [0; 30; 38; 51]%Q ["Normal"; "Alto"; "Extremo"] 51 = None ∧
  cut [0; 30; 38; 51]%Q ["Normal"; "Alto"; "Extremo"] 30 = Some "Alto".
Proof. vm_compute. done. Qed.

(** * The simulated alerts *)

Lemma arredondar_decimal_mono x y :
  (x <= y)%Q → (arredondar_decimal x <= arredondar_decimal y)%Q.
Proof.
  intros H. unfold arredondar_decimal.
  assert (Hf : (Qfloor (x * 10 + (1 # 2)) ≤ Qfloor (y * 10 + (1 # 2)))%Z)
    by (apply Qfloor_resp_le; lra).
  unfold Qle. cbn [Qnum Qden]. lia.
Qed.

Lemma arredondar_decimal_inteiro (z : Z) :
  (arredondar_decimal (inject_Z z) == inject_Z z)%Q.
Proof.
  unfold arredondar_decimal.
  assert (Hf : Qfloor (inject_Z z * 10 + (1 # 2)) = (z * 10)%Z).
  { apply Z.le_antisymm.
    - apply Z.lt_succ_r. rewrite Zlt_Qlt.
      eapply Qle_lt_trans; [apply Qfloor_le|].
      unfold Z.succ. rewrite inject_Z_plus, inject_Z_mult.
      change (inject_Z 10) with 10%Q. change (inject_Z 1) with 1%Q. lra.
    - rewrite <- (Qfloor_Z (z * 10)). apply Qfloor_resp_le.
      rewrite inject_Z_mult. change (inject_Z 10) with 10%Q. lra. }
  rewrite Hf. unfold Qeq. cbn [Qnum Qden inject_Z]. lia.
Qed.

Section GeradorPropriedades.
Variable arredondar : Q → Q.
Variable fonte : nat → sorteio.
Hypothesis arredondar_mono :
  ∀ x y, (x <= y)%Q → (arredondar x <= arredondar y)%Q.
Hypothesis arredondar_inteiro :
  ∀ z : Z, (arredondar (inject_Z z) == inject_Z z)%Q.

Local Abbreviation alerta := (alerta_simulado arredondar fonte).

Lemma alerta_temp i :
  alerta i !! "temp"
  = Some (VNum (arredondar
       (clip (if (i mod 20 =? 0)%nat then 42 else s_temp (fonte i)) 15 50))).
Proof. reflexivity. Qed.

Lemma alerta_hum i :
  alerta i !! "hum"
  = Some (VNum (arredondar
       (clip (if (i mod 20 =? 0)%nat then 18 else s_hum (fonte i)) 10 90))).
Proof. reflexivity. Qed.

Lemma alerta_wind i :
  alerta i !! "wind" = Some (VNum (arredondar (clip (s_wind (fonte i)) 0 80))).
Proof. reflexivity. Qed.

Lemma alerta_event_type i :
  alerta i !! "event_type"
  = Some (VStr (if (i mod 15 =? 0)%nat then "raio_seco" else s_event (fonte i))).
Proof. reflexivity. Qed.

Lemma arredondar_clip x (lo hi : Z) :
  (inject_Z lo <= inject_Z hi)%Q →
  (inject_Z lo <= arredondar (clip x (inject_Z lo) (inject_Z hi)))%Q ∧
  (arredondar (clip x (inject_Z lo) (inject_Z hi)) <= inject_Z hi)%Q.
Proof.
  intros H. destruct (clip_bounds x _ _ H) as [H1 H2].
  apply arredondar_mono in H1, H2.
  rewrite arredondar_inteiro in H1, H2. by split.
Qed.

(** X15: whatever is drawn, every simulated alert has a temperature between
    15 and 50, a humidity between 10 and 90 and a wind between 0 and 80,
    provided the rounding to one decimal is monotone and leaves whole
    numbers as they are. *)
Theorem alerta_simulado_limites i :
  ∃ temp hum wind,
    alerta_simulado arredondar fonte i !! "temp" = Some (VNum temp) ∧
    alerta_simulado arredondar fonte i !! "hum" = Some (VNum hum) ∧
    alerta_simulado arredondar fonte i !! "wind" = Some (VNum wind) ∧
    (15 <= temp)%Q ∧ (temp <= 50)%Q ∧
    (10 <= hum)%Q ∧ (hum <= 90)%Q ∧
    (0 <= wind)%Q ∧ (wind <= 80)%Q.
Proof.
  eexists _, _, _.
  split; [apply alerta_temp|]. split; [apply alerta_hum|].
  split; [apply alerta_wind|].
  split_and!;
    first [apply (arredondar_clip _ 15 50)|apply (arredondar_clip _ 10 90)
          |apply (arredondar_clip _ 0 80)]; done.
Qed.

(** The rows of the generator never make the example rules raise: their
    three measures are numbers and their event type is a string. *)
Lemma alerta_simulado_sem_erro i :
  Forall (λ r, (∃ b, regra_cumprida (alerta i) r = Ok b) ∧ ∃ t, retorno r = Ok t)
         regras_json.
Proof.
  unfold regras_json. cada_um; (split; [|by eexists]);
    unfold regra_cumprida; simpl obter; apply condicoes_sem_erro; cada_um;
    (apply condicao_sem_erro; [split_and!; by eexists|]);
    intros v a op x Hv Ha Hop Hx _; simpl in Hv, Hop, Hx; simplify_eq;
    first [rewrite alerta_temp in Ha|rewrite alerta_hum in Ha
          |rewrite alerta_wind in Ha|rewrite alerta_event_type in Ha];
    by simplify_eq.
Qed.

Lemma alerta_planted i :
  i mod 20 = 0 → cumpre (alerta i)
    (regra_completa "REGRA_CRITICA_01" 1 "Temp > 40 E Hum < 20"
       [cond "temp" ">" (VNum 40); cond "hum" "<" (VNum 20)]
       "CRÍTICO" "Mobilização imediata.").
Proof.
  intros Hi. eexists. split; [reflexivity|].
  pose proof (arredondar_inteiro 42) as H42.
  pose proof (arredondar_inteiro 18) as H18.
  change (inject_Z 42) with 42%Q in H42. change (inject_Z 18) with 18%Q in H18.
  cada_um.
  - eapply cumprida_comparacao; [reflexivity|apply alerta_temp|reflexivity..|].
    rewrite Hi. change (clip 42 15 50) with 42%Q.
    change (Ok (negb (Qle_bool (arredondar 42) 40)) = Ok true).
    f_equal. apply negb_true_iff, not_true_iff_false.
    rewrite Qle_bool_iff. lra.
  - eapply cumprida_comparacao; [reflexivity|apply alerta_hum|reflexivity..|].
    rewrite Hi. change (clip 18 10 90) with 18%Q.
    change (Ok (negb (Qle_bool 20 (arredondar 18))) = Ok true).
    f_equal. apply negb_true_iff, not_true_iff_false.
    rewrite Qle_bool_iff. lra.
Qed.

Lemma alerta_planted_critico i :
  i mod 20 = 0 →
  avaliar_alerta (Motor regras_json) (alerta i)
  = Ok ("CRÍTICO", "Mobilização imediata.", "REGRA_CRITICA_01").
Proof.
  intros Hi. unfold avaliar_alerta. simpl regras.
  exact (avaliar_regras_primeira (alerta i) [] _ (tail regras_json)
           (Forall_nil_2 _) (alerta_planted i Hi)).
Qed.

(** X16: the alerts that the generator plants are found: with the example
    rule base every twentieth simulated alert, the first included, is
    classified CRÍTICO by rule REGRA_CRITICA_01, whatever was drawn for it. *)
Theorem alerta_simulado_critico i :
  i mod 20 = 0 →
  avaliar_alerta (Motor regras_json) (alerta_simulado arredondar fonte i)
  = Ok ("CRÍTICO", "Mobilização imediata.", "REGRA_CRITICA_01").
Proof. apply alerta_planted_critico. Qed.

(** X17: every fifteenth simulated alert carries the event [raio_seco] and
    is never left at NORMAL by the example rule base: it is classified
    CRÍTICO when its measures satisfy the first rule and ALTO by rule
    REGRA_ALTA_01 otherwise. *)
Theorem alerta_simulado_raio i :
  i mod 15 = 0 →
  avaliar_alerta (Motor regras_json) (alerta_simulado arredondar fonte i)
  = Ok ("CRÍTICO", "Mobilização imediata.", "REGRA_CRITICA_01") ∨
  avaliar_alerta (Motor regras_json) (alerta_simulado arredondar fonte i)
  = Ok ("ALTO", "Enviar vigilância.", "REGRA_ALTA_01").
Proof.
  intros Hi. pose proof (alerta_simulado_sem_erro i) as H.
  unfold regras_json in H. apply Forall_cons in H as [[[b Hb] _] _].
  unfold avaliar_alerta, regras_json. simpl regras.
  cbn [avaliar_regras]. rewrite Hb. destruct b; [by left|right]. simpl.
  assert (Hr : regra_cumprida (alerta i) (regra_completa "REGRA_ALTA_01" 2
      "Evento 'raio_seco'" [cond "event_type" "==" (VStr "raio_seco")]
      "ALTO" "Enviar vigilância.") = Ok true).
  { apply regra_cumprida_true. eexists. split; [reflexivity|]. cada_um.
    eapply cumprida_comparacao;
      [reflexivity|apply alerta_event_type|reflexivity..|].
    rewrite Hi. reflexivity. }
  by rewrite Hr.
Qed.

(** X18: the script never fails on its own data: with the example rule
    base, which is loaded as it is written, [processar_dataset] on a
    generated frame of [n >= 1] alerts raises nothing and returns [n]
    results, the first of them CRÍTICO, so the selection of the alerts that
    ask for action, which the script reports, is never empty. *)
Theorem processar_dados_simulados n :
  n ≠ 0 →
  __init__ (JsonLido regras_json) = Ok (Motor regras_json) ∧
  ∃ saida,
    processar_dataset (Motor regras_json)
      (CsvLido (gerar_dados_simulados arredondar fonte n)) = Ok (Some saida) ∧
    length saida = n ∧
    saida !! 0 = Some (alerta_simulado arredondar fonte 0,
                       ("CRÍTICO", "Mobilização imediata.", "REGRA_CRITICA_01")) ∧
    casos_com_acao saida ≠ [].
Proof.
  intros Hn. split; [vm_compute; reflexivity|].
  destruct n as [|n]; [done|].
  assert (Hok : Forall (λ row, ∃ t, avaliar_alerta (Motor regras_json) row = Ok t)
                  (alerta <$> seq 0 (S n))).
  { apply Forall_fmap, Forall_forall. intros i _.
    apply avaliar_regras_sem_erro, alerta_simulado_sem_erro. }
  destruct (aplicar_Forall2 _ _ Hok) as (ts & Hts & H2).
  exists (zip (alerta <$> seq 0 (S n)) ts).
  assert (H0 : zip (alerta <$> seq 0 (S n)) ts !! 0
               = Some (alerta 0,
                       ("CRÍTICO", "Mobilização imediata.", "REGRA_CRITICA_01"))).
  { apply lookup_zip_with_Some. exists (alerta 0).
    destruct (Forall2_lookup_l _ _ _ 0 (alerta 0) H2) as (t & Ht & Hav);
      [done|].
    exists t. split_and!; [|done|done].
    rewrite alerta_planted_critico in Hav by done. by injection Hav as <-. }
  split_and!; [| |done|].
  - unfold processar_dataset, gerar_dados_simulados. simpl regras.
    unfold regras_json at 1. cbn [linhas]. rewrite Hts. reflexivity.
  - rewrite (length_zip_with_same_l _ _ _ _ H2), length_fmap. apply length_seq.
  - destruct (zip (alerta <$> seq 0 (S n)) ts) as [|par saida]; [done|].
    injection H0 as ->. unfold casos_com_acao.
    by rewrite filter_cons_True.
Qed.
End GeradorPropriedades.

Lemma alerta_simulado_limites_witness :
  (∀ x y, (x <= y)%Q → (arredondar_decimal x <= arredondar_decimal y)%Q) ∧
  (∀ z : Z, (arredondar_decimal (inject_Z z) == inject_Z z)%Q) ∧
  ∃ temp hum wind,
    alerta_simulado arredondar_decimal fonte_fixa 7 !! "temp" = Some (VNum temp) ∧
    alerta_simulado arredondar_decimal fonte_fixa 7 !! "hum" = Some (VNum hum) ∧
    alerta_simulado arredondar_decimal fonte_fixa 7 !! "wind" = Some (VNum wind) ∧
    (15 <= temp)%Q ∧ (temp <= 50)%Q ∧
    (10 <= hum)%Q ∧ (hum <= 90)%Q ∧
    (0 <= wind)%Q ∧ (wind <= 80)%Q.
Proof.
  split_and!;
    [exact arredondar_decimal_mono|exact arredondar_decimal_inteiro|].
  exact (alerta_simulado_limites arredondar_decimal fonte_fixa
           arredondar_decimal_mono arredondar_decimal_inteiro 7).
Defined.

Lemma alerta_simulado_critico_witness :
  40 mod 20 = 0 ∧
  avaliar_alerta (Motor regras_json)
                 (alerta_simulado arredondar_decimal fonte_fixa 40)
  = Ok ("CRÍTICO", "Mobilização imediata.", "REGRA_CRITICA_01").
Proof.
  split; [reflexivity|].
  apply (alerta_simulado_critico arredondar_decimal fonte_fixa
           arredondar_decimal_inteiro 40).
  reflexivity.
Defined.

Lemma alerta_simulado_raio_witness :
  45 mod 15 = 0 ∧
  avaliar_alerta (Motor regras_json)
                 (alerta_simulado arredondar_decimal fonte_fixa 45)
  = Ok ("ALTO", "Enviar vigilância.", "REGRA_ALTA_01").
Proof.
  split; [reflexivity|].
  destruct (alerta_simulado_raio arredondar_decimal fonte_fixa 45 eq_refl)
    as [H|H]; [|exact H].
  exfalso. vm_compute in H. discriminate H.
Defined.

Lemma processar_dados_simulados_witness :
  100 ≠ 0 ∧
  ∃ saida,
    processar_dataset (Motor regras_json)
      (CsvLido (gerar_dados_simulados arredondar_decimal fonte_fixa 100))
    = Ok (Some saida) ∧
    length saida = 100.
Proof.
  split; [done|].
  destruct (processar_dados_simulados arredondar_decimal fonte_fixa
              arredondar_decimal_inteiro 100) as (_ & saida & H1 & H2 & _ & _);
    [done|].
  by exists saida.
Defined.
